(** * The chat client of the research assistant: [services/api.ts] and
      [components/ChatInterface.tsx]

    A shallow embedding of the streaming client [streamQuery] and of the
    submit handler [handleSubmit] that consumes it, with the properties of
    the wire protocol (newline-delimited JSON over a chunked byte stream)
    that the client is outcome_of_text to satisfy. *)

From Stdlib Require Import List Bool Arith ZArith NArith Lia String Ascii.
From Stdlib.Strings Require Import Byte.
From Stdlib Require Import Floats.SpecFloat.
Import ListNotations.

Set Implicit Arguments.
Set Warnings "-register-all".

(** ** JavaScript strings and values *)

(** A JavaScript string is a sequence of UTF-16 code units. *)
Definition code_unit := N.
Definition jsstring := list code_unit.

(** String literals of the source, written as Rocq strings. *)
Definition lit (s : string) : jsstring :=
  map N_of_ascii (list_ascii_of_string s).

Definition str_eqb (a b : jsstring) : bool :=
  if list_eq_dec N.eq_dec a b then true else false.

(** A string is truthy exactly when it is not empty. *)
Definition nonempty (s : jsstring) : bool :=
  match s with [] => false | _ :: _ => true end.

(** The values [JSON.parse] can produce.  Numbers are IEEE doubles; objects
    keep their members as an association list. *)
Inductive json : Type :=
| JNull
| JBool (b : bool)
| JNum (x : spec_float)
| JStr (s : jsstring)
| JArr (elements : list json)
| JObj (members : list (jsstring * json)).

Fixpoint assoc (k : jsstring) (ms : list (jsstring * json)) : option json :=
  match ms with
  | [] => None
  | (k', v) :: ms' => if str_eqb k k' then Some v else assoc k ms'
  end.

(** [k in v]: [None] stands for the TypeError the operator throws when its
    right operand is not an object.  An array has no property of the names
    the client asks for. *)
Definition js_in (k : jsstring) (v : json) : option bool :=
  match v with
  | JObj ms => Some (match assoc k ms with Some _ => true | None => false end)
  | JArr _ => Some false
  | _ => None
  end.

(** [v.k] on a value that passed [js_in]; [None] is [undefined]. *)
Definition get_prop (k : jsstring) (v : json) : option json :=
  match v with
  | JObj ms => assoc k ms
  | _ => None
  end.

(** ToBoolean on a value that may be [undefined]. *)
Definition truthy (v : option json) : bool :=
  match v with
  | None => false
  | Some JNull => false
  | Some (JBool b) => b
  | Some (JNum x) =>
      match x with
      | S754_zero _ => false
      | S754_nan => false
      | _ => true
      end
  | Some (JStr s) => nonempty s
  | Some (JArr _) => true
  | Some (JObj _) => true
  end.

(** ** String.prototype.trim and String.prototype.split *)

(** WhiteSpace and LineTerminator code units of ECMAScript. *)
Definition is_white_space (c : code_unit) : bool :=
  ((9 <=? c) && (c <=? 13) || (c =? 32) || (c =? 160) || (c =? 5760)
   || (8192 <=? c) && (c <=? 8202) || (c =? 8232) || (c =? 8233)
   || (c =? 8239) || (c =? 8287) || (c =? 12288) || (c =? 65279))%N.

Fixpoint trim_start (s : jsstring) : jsstring :=
  match s with
  | [] => []
  | c :: s' => if is_white_space c then trim_start s' else s
  end.

Definition trim (s : jsstring) : jsstring :=
  rev (trim_start (rev (trim_start s))).

Definition newline : code_unit := 10%N.

(** [cons_head c ls] puts [c] in front of the first segment. *)
Definition cons_head (c : code_unit) (ls : list jsstring) : list jsstring :=
  match ls with
  | [] => [[c]]
  | l :: ls' => (c :: l) :: ls'
  end.

(** [s.split(sep)] for a one-unit separator: never an empty array. *)
Fixpoint split (sep : code_unit) (s : jsstring) : list jsstring :=
  match s with
  | [] => [[]]
  | c :: s' =>
      if N.eqb c sep then [] :: split sep s'
      else cons_head c (split sep s')
  end.

(** [Array.prototype.pop]: the last element ([None] is [undefined]) and the
    array that is left. *)
Fixpoint pop (A : Type) (l : list A) : option A * list A :=
  match l with
  | [] => (None, [])
  | x :: r =>
      match r with
      | [] => (Some x, [])
      | _ :: _ => let (o, r') := pop r in (o, x :: r')
      end
  end.

(** [x || ''] *)
Definition or_empty (o : option jsstring) : jsstring :=
  match o with
  | Some s => if nonempty s then s else []
  | None => []
  end.

(** ** The fetch API as [streamQuery] sees it *)

(** A thrown value: an [Error] with its message, or anything else. *)
Inductive thrown : Type :=
| ErrorObject (message : jsstring)
| NonError.

Module Fetch.

(** How a response body ends: the stream is closed, or reading fails. *)
Inductive stream_end : Type :=
| Closed
| Errored (e : thrown).

(** The body of a response: the chunks the reader will deliver, then its
    end.  Once the chunks are consumed every [read()] reports the end. *)
Record ReadableStream : Type := {
  chunks : list (list byte);
  ending : stream_end
}.

Record Response : Type := {
  status : Z;
  body : option ReadableStream
}.

(** [response.ok]: the status is in the range 200-299. *)
Definition ok (r : Response) : bool :=
  ((200 <=? status r) && (status r <=? 299))%Z.

Inductive fetch_result : Type :=
| Rejected (e : thrown)
| Resolved (response : Response).

(** [reader.read()] on what is left of a body. *)
Inductive read_result : Type :=
| ReadValue (value : list byte) (rest : ReadableStream)
| ReadDone
| ReadThrew (e : thrown).

Definition reader_read (r : ReadableStream) : read_result :=
  match chunks r with
  | value :: rest => ReadValue value {| chunks := rest; ending := ending r |}
  | [] =>
      match ending r with
      | Closed => ReadDone
      | Errored e => ReadThrew e
      end
  end.

End Fetch.

Import Fetch.

(** ** services/api.ts *)

(** interface QueryRequest: [max_results?: number | null] is absent
    ([None]), null ([Some None]) or a number. *)
Record QueryRequest : Type := {
  query : jsstring;
  sessionId : json;
  max_results : option (option spec_float)
}.

(** How a run of the generator ends: it returns, it throws, or it is still
    inside its [while (true)] loop when the fuel is used up. *)
Inductive completion : Type :=
| Returned
| Thrown (e : thrown)
| OutOfFuel.

(** What a run of the generator has done: the module-level
    [currentSessionId], the values yielded so far in order, and the number
    of [reader.read()] calls. *)
Record gen_state : Type := {
  currentSessionId : json;
  yielded : list json;
  reads : nat
}.

Definition yield (m : json) (st : gen_state) : gen_state :=
  {| currentSessionId := currentSessionId st;
     yielded := yielded st ++ [m];
     reads := reads st |}.

Definition set_session (v : json) (st : gen_state) : gen_state :=
  {| currentSessionId := v; yielded := yielded st; reads := reads st |}.

Definition count_read (st : gen_state) : gen_state :=
  {| currentSessionId := currentSessionId st;
     yielded := yielded st;
     reads := S (reads st) |}.

Definition k_sessionId : jsstring := lit "sessionId".
Definition k_type : jsstring := lit "type".
Definition k_content : jsstring := lit "content".

(** [{ type: 'error', content: c }] *)
Definition error_message (c : jsstring) : json :=
  JObj [(k_type, JStr (lit "error")); (k_content, JStr c)].

(** The content of the message yielded on status 429 (line 39). *)
Definition too_many_requests : jsstring :=
  lit "Too many requests. Please wait a minute before trying again.".

(** [error instanceof Error ? error.message : 'An unknown error occurred'] *)
Definition error_content (error : thrown) : jsstring :=
  match error with
  | ErrorObject message => message
  | NonError => lit "An unknown error occurred"
  end.

(** [message.sessionId] after ['sessionId' in message] held. *)
Definition sessionId_of (message : json) : json :=
  match get_prop k_sessionId message with
  | Some v => v
  | None => JNull
  end.

(** What the generator takes from the platform.  [TextDecoder] in streaming
    mode is a machine that consumes bytes and emits code units, keeping an
    unfinished sequence in its state.  [JSON.parse] returns a value, [None]
    standing for the SyntaxError it throws. *)
Class Platform : Type := {
  decoder : Type;
  decoder_new : decoder;
  decode_byte : decoder -> byte -> decoder * jsstring;
  JSON_parse : jsstring -> option json
}.

Section StreamQuery.

Context {env : Platform}.

(** [decoder.decode(value, { stream: true })] *)
Fixpoint decode (d : decoder) (value : list byte) : decoder * jsstring :=
  match value with
  | [] => (d, [])
  | b :: value' =>
      let (d1, s1) := decode_byte d b in
      let (d2, s2) := decode d1 value' in
      (d2, s1 ++ s2)
  end.

(** The body of [for (const line of lines)] (lines 78-91). *)
Definition handle_line (st : gen_state) (line : jsstring) : gen_state :=
  if nonempty (trim line) then
    match JSON_parse line with
    | Some message =>
        match js_in k_sessionId message with
        | Some true => set_session (sessionId_of message) st
        | Some false => yield message st
        | None => st
        end
    | None => st
    end
  else st.

(** The [while (true)] loop (lines 54-92), [fuel] bounding the number of
    iterations. *)
Fixpoint read_loop (fuel : nat) (reader : ReadableStream) (d : decoder)
    (buffer : jsstring) (st : gen_state) : gen_state * completion :=
  match fuel with
  | O => (st, OutOfFuel)
  | S fuel' =>
      match reader_read reader with
      | ReadThrew e => (count_read st, Thrown e)
      | ReadDone =>
          let st := count_read st in
          if nonempty buffer then
            match JSON_parse buffer with
            | Some message =>
                match js_in k_sessionId message with
                | Some true =>
                    read_loop fuel' reader d buffer
                      (set_session (sessionId_of message) st)
                | Some false => (yield message st, Returned)
                | None => (st, Returned)
                end
            | None => (st, Returned)
            end
          else (st, Returned)
      | ReadValue value reader' =>
          let st := count_read st in
          let (d', text) := decode d value in
          let buffer := buffer ++ text in
          let (last_line, lines) := pop (split newline buffer) in
          let buffer := or_empty last_line in
          read_loop fuel' reader' d' buffer (fold_left handle_line lines st)
      end
  end.

(** The [try] block (lines 18-92).  The request body is returned with the
    outcome; [net] is what [fetch] does with it. *)
Definition requestBody (q : jsstring) (st : gen_state) : QueryRequest :=
  {| query := trim q;
     sessionId := currentSessionId st;
     max_results := Some None |}.

Definition try_block (fuel : nat) (q : jsstring) (net : fetch_result)
    (st : gen_state) : gen_state * completion :=
  match net with
  | Rejected e => (st, Thrown e)
  | Resolved response =>
      if negb (ok response) then
        if (status response =? 429)%Z then
          (yield (error_message too_many_requests) st, Returned)
        else (st, Thrown (ErrorObject (lit "Network response was not ok")))
      else
        match body response with
        | None => (st, Thrown (ErrorObject (lit "Response body is null")))
        | Some reader => read_loop fuel reader decoder_new [] st
        end
  end.

(** The [catch] block (lines 93-98). *)
Definition catch_block (error : thrown) (st : gen_state) : gen_state :=
  yield (error_message (error_content error)) st.

(** One call of the generator, run to its end by a consumer that takes
    every value.  [sid] is the module-level [currentSessionId] when the
    call starts; the result is the request sent and what the generator
    did. *)
Definition streamQuery (fuel : nat) (q : jsstring) (net : fetch_result)
    (sid : json) : QueryRequest * (gen_state * completion) :=
  let st := {| currentSessionId := sid; yielded := []; reads := 0 |} in
  (requestBody q st,
   match try_block fuel q net st with
   | (st', Thrown error) => (catch_block error st', Returned)
   | r => r
   end).

End StreamQuery.

(** ** The platform functions, for running the model on concrete streams *)

Module Utf8.

(** The UTF-8 decoder of the Encoding Standard, which [new TextDecoder()]
    selects: its state between two bytes, and whether the byte order mark
    check has been done. *)
Record state : Type := {
  code_point : N;
  bytes_seen : N;
  bytes_needed : N;
  lower_boundary : N;
  upper_boundary : N;
  bom_seen : bool
}.

Definition new : state :=
  {| code_point := 0; bytes_seen := 0; bytes_needed := 0;
     lower_boundary := 128; upper_boundary := 191; bom_seen := false |}.

Definition reset (d : state) : state :=
  {| code_point := 0; bytes_seen := 0; bytes_needed := 0;
     lower_boundary := 128; upper_boundary := 191; bom_seen := bom_seen d |}.

Definition lead (d : state) (cp needed lo hi : N) : state :=
  {| code_point := cp; bytes_seen := 0; bytes_needed := needed;
     lower_boundary := lo; upper_boundary := hi; bom_seen := bom_seen d |}.

Inductive item : Type :=
| Scalar (cp : N)
| Replacement.

(** The handler when no sequence is open. *)
Definition first_byte (d : state) (b : N) : state * list item :=
  (if b <=? 127 then (d, [Scalar b])
   else if (194 <=? b) && (b <=? 223) then
     (lead d (N.land b 31) 1 128 191, [])
   else if (224 <=? b) && (b <=? 239) then
     (lead d (N.land b 15) 2
           (if b =? 224 then 160 else 128)
           (if b =? 237 then 159 else 191), [])
   else if (240 <=? b) && (b <=? 244) then
     (lead d (N.land b 7) 3
           (if b =? 240 then 144 else 128)
           (if b =? 244 then 143 else 191), [])
   else (d, [Replacement]))%N.

(** The handler: a byte outside the boundaries ends the open sequence
    with an error and is then read again as a first byte. *)
Definition handler (d : state) (b : N) : state * list item :=
  (if bytes_needed d =? 0 then first_byte d b
   else if negb ((lower_boundary d <=? b) && (b <=? upper_boundary d)) then
     let (d', items) := first_byte (reset d) b in
     (d', Replacement :: items)
   else
     let cp := N.lor (N.shiftl (code_point d) 6) (N.land b 63) in
     let seen := bytes_seen d + 1 in
     if seen =? bytes_needed d then (reset d, [Scalar cp])
     else
       ({| code_point := cp; bytes_seen := seen;
           bytes_needed := bytes_needed d;
           lower_boundary := 128; upper_boundary := 191;
           bom_seen := bom_seen d |}, []))%N.

(** A scalar value as UTF-16 code units. *)
Definition utf16 (i : item) : jsstring :=
  match i with
  | Replacement => [65533%N]
  | Scalar cp =>
      (if cp <? 65536 then [cp]
       else [55296 + N.shiftr (cp - 65536) 10;
             56320 + N.land (cp - 65536) 1023])%N
  end.

(** Serialising the decoded items: a leading U+FEFF is dropped. *)
Fixpoint emit (seen : bool) (items : list item) : bool * jsstring :=
  match items with
  | [] => (seen, [])
  | i :: items' =>
      let (seen', s) := emit true items' in
      match seen, i with
      | false, Scalar 65279%N => (seen', s)
      | _, _ => (seen', utf16 i ++ s)
      end
  end.

Definition decode_byte (d : state) (b : byte) : state * jsstring :=
  let (d', items) := handler d (Byte.to_N b) in
  let (seen, s) := emit (bom_seen d') items in
  ({| code_point := code_point d'; bytes_seen := bytes_seen d';
      bytes_needed := bytes_needed d';
      lower_boundary := lower_boundary d';
      upper_boundary := upper_boundary d'; bom_seen := seen |}, s).

End Utf8.

Module Json.

(** [JSON.parse]: the literals [null], [true] and [false], numbers as the
    doubles nearest to them, strings with their escapes, arrays and
    objects; any other text is reported as a SyntaxError. *)
Inductive token : Type :=
| TLBrace | TRBrace | TLBracket | TRBracket | TColon | TComma
| TString (s : jsstring)
| TLit (v : json).

Definition hex_digit (c : code_unit) : option N :=
  (if (48 <=? c) && (c <=? 57) then Some (c - 48)
   else if (65 <=? c) && (c <=? 70) then Some (c - 55)
   else if (97 <=? c) && (c <=? 102) then Some (c - 87)
   else None)%N.

(** The one-letter escapes: quote, backslash, slash, b, f, n, r, t. *)
Definition simple_escape (c : code_unit) : option code_unit :=
  (if c =? 34 then Some 34
   else if c =? 92 then Some 92
   else if c =? 47 then Some 47
   else if c =? 98 then Some 8
   else if c =? 102 then Some 12
   else if c =? 110 then Some 10
   else if c =? 114 then Some 13
   else if c =? 116 then Some 9
   else None)%N.

(** The characters of a string after its opening quote: the string and
    the text after its closing quote. *)
Fixpoint lex_string (s acc : jsstring) : option (jsstring * jsstring) :=
  match s with
  | [] => None
  | c :: r =>
      if (c =? 34)%N then Some (rev acc, r)
      else if (c <? 32)%N then None
      else if (c =? 92)%N then
        match r with
        | [] => None
        | e :: r1 =>
            match simple_escape e with
            | Some u => lex_string r1 (u :: acc)
            | None =>
                if (e =? 117)%N then
                  match r1 with
                  | h1 :: h2 :: h3 :: h4 :: r2 =>
                      match hex_digit h1, hex_digit h2,
                            hex_digit h3, hex_digit h4 with
                      | Some a, Some b, Some c', Some d =>
                          lex_string r2
                            ((((a * 16 + b) * 16 + c') * 16 + d)%N :: acc)
                      | _, _, _, _ => None
                      end
                  | _ => None
                  end
                else None
            end
        end
      else lex_string r (c :: acc)
  end.

Fixpoint strip_prefix (p s : jsstring) : option jsstring :=
  match p, s with
  | [], _ => Some s
  | a :: p', b :: s' => if (a =? b)%N then strip_prefix p' s' else None
  | _ :: _, [] => None
  end.

Definition is_json_space (c : code_unit) : bool :=
  ((c =? 32) || (c =? 9) || (c =? 10) || (c =? 13))%N.

Definition push (t : token) (r : option (list token)) : option (list token) :=
  match r with
  | Some ts => Some (t :: ts)
  | None => None
  end.

Definition is_digit (c : code_unit) : bool := ((48 <=? c) && (c <=? 57))%N.

(** The digits at the start of a text, and what follows them. *)
Fixpoint take_digits (s : jsstring) : jsstring * jsstring :=
  match s with
  | [] => ([], [])
  | c :: r =>
      if is_digit c then let (ds, r') := take_digits r in (c :: ds, r')
      else ([], s)
  end.

Definition digits_value (ds : jsstring) : Z :=
  fold_left (fun acc d => acc * 10 + Z.of_N (d - 48))%Z ds 0%Z.

(** The double nearest to [m * 10 ^ e], ties to even, with the sign
    given. *)
Definition of_decimal (negative : bool) (m e : Z) : spec_float :=
  if (0 <=? e)%Z then
    match (m * 10 ^ e)%Z with
    | Zpos p => binary_round 53 1024 negative p 0
    | _ => S754_zero negative
    end
  else
    match m, (10 ^ (- e))%Z with
    | Zpos p, Zpos d =>
        SFdiv 53 1024 (S754_finite negative p 0) (S754_finite false d 0)
    | _, _ => S754_zero negative
    end.

(** A number of the JSON grammar at the start of a text: an optional
    minus, an integer without a leading zero, an optional fraction and an
    optional exponent. *)
Definition lex_number (s : jsstring) : option (spec_float * jsstring) :=
  let (negative, s1) :=
    match s with
    | 45%N :: r => (true, r)
    | _ => (false, s)
    end in
  let (int, s2) := take_digits s1 in
  match int with
  | [] => None
  | d :: more =>
      if (d =? 48)%N && nonempty more then None
      else
        let fraction :=
          match s2 with
          | 46%N :: r =>
              let (f, r') := take_digits r in
              if nonempty f then Some (f, r') else None
          | _ => Some ([], s2)
          end in
        match fraction with
        | None => None
        | Some (frac, s3) =>
            let exponent :=
              match s3 with
              | c :: r =>
                  if (c =? 101)%N || (c =? 69)%N then
                    let (minus, r1) :=
                      match r with
                      | 45%N :: r' => (true, r')
                      | 43%N :: r' => (false, r')
                      | _ => (false, r)
                      end in
                    let (ds, r2) := take_digits r1 in
                    if nonempty ds then
                      Some ((if minus then - digits_value ds
                             else digits_value ds)%Z, r2)
                    else None
                  else Some (0%Z, s3)
              | [] => Some (0%Z, s3)
              end in
            match exponent with
            | None => None
            | Some (e, s4) =>
                Some (of_decimal negative (digits_value (int ++ frac))
                        (e - Z.of_nat (List.length frac)),
                      s4)
            end
        end
  end.

Fixpoint lex (fuel : nat) (s : jsstring) : option (list token) :=
  match fuel with
  | O => None
  | S fuel' =>
      match s with
      | [] => Some []
      | c :: r =>
          if is_json_space c then lex fuel' r
          else if (c =? 123)%N then push TLBrace (lex fuel' r)
          else if (c =? 125)%N then push TRBrace (lex fuel' r)
          else if (c =? 91)%N then push TLBracket (lex fuel' r)
          else if (c =? 93)%N then push TRBracket (lex fuel' r)
          else if (c =? 58)%N then push TColon (lex fuel' r)
          else if (c =? 44)%N then push TComma (lex fuel' r)
          else if (c =? 34)%N then
            match lex_string r [] with
            | Some (str, r') => push (TString str) (lex fuel' r')
            | None => None
            end
          else if (c =? 45)%N || is_digit c then
            match lex_number s with
            | Some (x, r') => push (TLit (JNum x)) (lex fuel' r')
            | None => None
            end
          else
            match strip_prefix (lit "null") s,
                  strip_prefix (lit "true") s,
                  strip_prefix (lit "false") s with
            | Some r', _, _ => push (TLit JNull) (lex fuel' r')
            | _, Some r', _ => push (TLit (JBool true)) (lex fuel' r')
            | _, _, Some r' => push (TLit (JBool false)) (lex fuel' r')
            | _, _, _ => None
            end
      end
  end.

Definition remove_key (k : jsstring) (ms : list (jsstring * json)) :=
  filter (fun m => negb (str_eqb k (fst m))) ms.

(** A name that occurs twice keeps its last value. *)
Definition add_member (k : jsstring) (v : json)
    (ms : list (jsstring * json)) : list (jsstring * json) :=
  match assoc k ms with
  | Some v' => (k, v') :: remove_key k ms
  | None => (k, v) :: ms
  end.

Fixpoint parse_value (fuel : nat) (ts : list token)
    : option (json * list token) :=
  match fuel with
  | O => None
  | S fuel' =>
      match ts with
      | TLit v :: r => Some (v, r)
      | TString s :: r => Some (JStr s, r)
      | TLBracket :: TRBracket :: r => Some (JArr [], r)
      | TLBracket :: r =>
          match parse_elements fuel' r with
          | Some (vs, r') => Some (JArr vs, r')
          | None => None
          end
      | TLBrace :: TRBrace :: r => Some (JObj [], r)
      | TLBrace :: r =>
          match parse_members fuel' r with
          | Some (ms, r') => Some (JObj ms, r')
          | None => None
          end
      | _ => None
      end
  end
with parse_elements (fuel : nat) (ts : list token)
    : option (list json * list token) :=
  match fuel with
  | O => None
  | S fuel' =>
      match parse_value fuel' ts with
      | Some (v, TComma :: r) =>
          match parse_elements fuel' r with
          | Some (vs, r') => Some (v :: vs, r')
          | None => None
          end
      | Some (v, TRBracket :: r) => Some ([v], r)
      | _ => None
      end
  end
with parse_members (fuel : nat) (ts : list token)
    : option (list (jsstring * json) * list token) :=
  match fuel with
  | O => None
  | S fuel' =>
      match ts with
      | TString k :: TColon :: r =>
          match parse_value fuel' r with
          | Some (v, TComma :: r') =>
              match parse_members fuel' r' with
              | Some (ms, r'') => Some (add_member k v ms, r'')
              | None => None
              end
          | Some (v, TRBrace :: r') => Some ([(k, v)], r')
          | _ => None
          end
      | _ => None
      end
  end.

Definition parse (s : jsstring) : option json :=
  match lex (S (List.length s)) s with
  | Some ts =>
      match parse_value (S (List.length ts)) ts with
      | Some (v, []) => Some v
      | _ => None
      end
  | None => None
  end.

End Json.

(** The bytes of an ASCII text as the server sends it.  The examples
    write the quotation mark of JSON as an apostrophe. *)
Definition wire_char (a : ascii) : byte :=
  if Ascii.eqb a "'"%char then x22 else byte_of_ascii a.

Definition bytes (s : string) : list byte :=
  map wire_char (list_ascii_of_string s).

Definition LF : string := String (ascii_of_nat 10) EmptyString.

(** ** components/ChatInterface.tsx *)

(** The text of a chat message: a value taken as it is, or the template
    literal [`${prefix}${v}`], kept unevaluated. *)
Inductive text_value : Type :=
| Value (v : option json)
| Template (prefix : jsstring) (v : option json).

(** interface Message of the component: [status] is optional. *)
Record Message : Type := {
  text : text_value;
  isAI : bool;
  status : option json
}.

(** The three pieces of component state. *)
Record ui_state : Type := {
  messages : list Message;
  input : jsstring;
  isLoading : bool
}.

Definition setMessages (f : list Message -> list Message) (ui : ui_state)
    : ui_state :=
  {| messages := f (messages ui); input := input ui;
     isLoading := isLoading ui |}.

Definition setInput (s : jsstring) (ui : ui_state) : ui_state :=
  {| messages := messages ui; input := s; isLoading := isLoading ui |}.

Definition setIsLoading (b : bool) (ui : ui_state) : ui_state :=
  {| messages := messages ui; input := input ui; isLoading := b |}.

(** [msg.status] as a condition: what the filter of the handlers and the
    rendering of a message test. *)
Definition has_status (msg : Message) : bool := truthy (status msg).

(** [prev.filter((msg) => !msg.status)] *)
Definition without_status (prev : list Message) : list Message :=
  filter (fun msg => negb (has_status msg)) prev.

(** [message.type === t] *)
Definition type_is (t : string) (message : json) : bool :=
  match get_prop k_type message with
  | Some (JStr s) => str_eqb s (lit t)
  | _ => false
  end.

(** The body of the [for await] loop (lines 70-82), as the updater it
    hands to [setMessages]. *)
Definition on_message (message : json) (prev : list Message)
    : list Message :=
  if type_is "status" message then
    without_status prev ++
    [{| text := Value (Some (JStr [])); isAI := true;
        status := get_prop k_content message |}]
  else if type_is "content" message then
    without_status prev ++
    [{| text := Value (get_prop k_content message); isAI := true;
        status := None |}]
  else if type_is "error" message then
    without_status prev ++
    [{| text := Template (lit "Error: ") (get_prop k_content message);
        isAI := true; status := None |}]
  else prev.

(** The updater of the [catch] block (lines 85-88). *)
Definition on_catch (prev : list Message) : list Message :=
  without_status prev ++
  [{| text := Value (Some (JStr (lit "An error occurred while processing your request.")));
      isAI := true; status := None |}].

(** [handleSubmit] up to the call of [streamQuery] (lines 56-66), when
    the render that made the handler has seen the state [ui]: the new state
    and the argument of the call, if there is one. *)
Definition handleSubmit_begin (ui : ui_state) : ui_state * option jsstring :=
  if negb (nonempty (trim (input ui))) || isLoading ui then (ui, None)
  else
    let userMessage :=
      {| text := Value (Some (JStr (input ui))); isAI := false;
         status := None |} in
    (setIsLoading true
       (setInput []
          (setMessages (fun prev => prev ++ [userMessage]) ui)),
     Some (input ui)).

(** The same lines in general.  The handler is a closure of the render
    that made it: [input] and [isLoading] in its body are the values that
    render has [seen], whatever the state [u] has become since; the
    setters act on the state as it is, [setMessages] through its updater. *)
Definition handleSubmit_in_render (seen u : ui_state)
    : ui_state * option jsstring :=
  if negb (nonempty (trim (input seen))) || isLoading seen then (u, None)
  else
    let userMessage :=
      {| text := Value (Some (JStr (input seen))); isAI := false;
         status := None |} in
    (setIsLoading true
       (setInput []
          (setMessages (fun prev => prev ++ [userMessage]) u)),
     Some (input seen)).

(** [handleSubmit] once the generator is finished (lines 84-91).  While
    the generator runs nothing is done. *)
Definition handleSubmit_end (c : completion) (ui : ui_state) : ui_state :=
  match c with
  | Returned => setIsLoading false ui
  | Thrown _ => setIsLoading false (setMessages on_catch ui)
  | OutOfFuel => ui
  end.

Section HandleSubmit.

Context {env : Platform}.

(** One whole [handleSubmit], with the network answering [net]: the new
    component state, the new [currentSessionId], and the request that was
    sent, if any. *)
Definition handleSubmit (fuel : nat) (net : fetch_result)
    (ui : ui_state) (sid : json)
    : ui_state * json * option QueryRequest :=
  match handleSubmit_begin ui with
  | (ui', None) => (ui', sid, None)
  | (ui', Some q) =>
      let '(request, (st, c)) :=
        streamQuery fuel q net sid in
      (handleSubmit_end c
         (fold_left (fun u m => setMessages (on_message m) u)
                    (yielded st) ui'),
       currentSessionId st, Some request)
  end.

End HandleSubmit.

(** The component between events.  [ui] is the state the setters have
    made, [rendered] the state that the latest render has seen and that
    its handlers read, [in_flight] the number of calls of [streamQuery]
    made by [handleSubmit] whose generator is not finished. *)
Record chat : Type := {
  ui : ui_state;
  rendered : ui_state;
  in_flight : nat
}.

Inductive event : Type :=
| Render
| Typing (s : jsstring)
| Submit
| StreamYield (message : json)
| StreamEnd (c : completion).

(** One event.  A render takes the state in; a submit runs the handler
    of the latest render; what the stream brings goes through the
    updaters. *)
Inductive step : chat -> event -> chat -> Prop :=
| step_render a :
    step a Render
         {| ui := ui a; rendered := ui a; in_flight := in_flight a |}
| step_typing a s :
    step a (Typing s)
         {| ui := setInput s (ui a); rendered := rendered a;
            in_flight := in_flight a |}
| step_submit_ignored a ui' :
    handleSubmit_in_render (rendered a) (ui a) = (ui', None) ->
    step a Submit
         {| ui := ui'; rendered := rendered a; in_flight := in_flight a |}
| step_submit_started a ui' q :
    handleSubmit_in_render (rendered a) (ui a) = (ui', Some q) ->
    step a Submit
         {| ui := ui'; rendered := rendered a;
            in_flight := S (in_flight a) |}
| step_yield a n message :
    in_flight a = S n ->
    step a (StreamYield message)
         {| ui := setMessages (on_message message) (ui a);
            rendered := rendered a; in_flight := in_flight a |}
| step_end a n c :
    in_flight a = S n ->
    c <> OutOfFuel ->
    step a (StreamEnd c)
         {| ui := handleSubmit_end c (ui a); rendered := rendered a;
            in_flight := n |}.

(** The component as mounted and rendered, with the messages found in
    local storage. *)
Definition chat_init (stored : list Message) : chat :=
  {| ui := {| messages := stored; input := []; isLoading := false |};
     rendered := {| messages := stored; input := []; isLoading := false |};
     in_flight := 0 |}.

Inductive reachable (stored : list Message) : chat -> Prop :=
| reach_init : reachable stored (chat_init stored)
| reach_step a e a' :
    reachable stored a -> step a e a' -> reachable stored a'.


(** The state after an event, computed. *)
Definition next (a : chat) (e : event) : chat :=
  match e with
  | Render => {| ui := ui a; rendered := ui a; in_flight := in_flight a |}
  | Typing s =>
      {| ui := setInput s (ui a); rendered := rendered a;
         in_flight := in_flight a |}
  | Submit =>
      match handleSubmit_in_render (rendered a) (ui a) with
      | (ui', None) =>
          {| ui := ui'; rendered := rendered a; in_flight := in_flight a |}
      | (ui', Some _) =>
          {| ui := ui'; rendered := rendered a;
             in_flight := S (in_flight a) |}
      end
  | StreamYield message =>
      {| ui := setMessages (on_message message) (ui a);
         rendered := rendered a; in_flight := in_flight a |}
  | StreamEnd c =>
      {| ui := handleSubmit_end c (ui a); rendered := rendered a;
         in_flight := Nat.pred (in_flight a) |}
  end.

(** [message.status !== undefined]: the entry has a status, whatever its
    value. *)
Definition status_set (msg : Message) : bool :=
  match status msg with
  | Some _ => true
  | None => false
  end.

(** C10 as it is written, on a list: at most one entry has a status set,
    and such an entry is the last. *)
Definition one_status_set_last (l : list Message) : Prop :=
  List.length (filter status_set l) <= 1
  /\ forall i m, nth_error l i = Some m -> status_set m = true ->
                 S i = List.length l.


(** A double that is a positive integer. *)
Definition is_positive_integer (x : spec_float) : bool :=
  match x with
  | S754_finite false m e =>
      ((0 <=? e) || (Z.pos m mod 2 ^ (- e) =? 0))%Z
  | _ => false
  end.

(** What the data model asks of [max_results]: absent, or a positive
    integer. *)
Definition max_results_absent_or_positive (request : QueryRequest) : Prop :=
  match max_results request with
  | None => True
  | Some None => False
  | Some (Some x) => is_positive_integer x = true
  end.

(** ** The response stream read as a text of lines *)

Section Protocol.

Context {env : Platform}.

(** The text the chunks of a body decode to. *)
Definition stream_text (cs : list (list byte)) : jsstring :=
  snd (decode decoder_new (List.concat cs)).

(** The lines that are ended by a newline, and what follows the last
    newline. *)
Definition complete_lines (t : jsstring) : list jsstring :=
  removelast (split newline t).

Definition last_line (t : jsstring) : jsstring :=
  last (split newline t) [].

(** The message a piece of text stands for: it parses to an object that
    has no [sessionId]. *)
Definition message_of (s : jsstring) : list json :=
  match JSON_parse s with
  | Some m =>
      match js_in k_sessionId m with
      | Some false => [m]
      | _ => []
      end
  | None => []
  end.

(** The session identifier a piece of text assigns. *)
Definition id_of (s : jsstring) : list json :=
  match JSON_parse s with
  | Some m =>
      match js_in k_sessionId m with
      | Some true => [sessionId_of m]
      | _ => []
      end
  | None => []
  end.

Definition of_line (f : jsstring -> list json) (line : jsstring)
    : list json :=
  if nonempty (trim line) then f line else [].

Definition of_last_line (f : jsstring -> list json) (s : jsstring)
    : list json :=
  if nonempty s then f s else [].

(** The messages of a response text, in the order of their lines. *)
Definition messages_in_line_order (t : jsstring) : list json :=
  flat_map (of_line message_of) (complete_lines t)
  ++ of_last_line message_of (last_line t).

(** The session identifiers of a response text, in the order of their
    lines. *)
Definition ids_in_line_order (t : jsstring) : list json :=
  flat_map (of_line id_of) (complete_lines t)
  ++ of_last_line id_of (last_line t).

(** What a consumer can see of a run: the session identifier left in
    the module, the values yielded, and how the run ended. *)
Definition observe (r : gen_state * completion)
    : json * list json * completion :=
  (currentSessionId (fst r), yielded (fst r), snd r).

(** What a run over a body with text [t] and end [e] comes to, from the
    session identifier [sid], once every chunk is read: the loop does not
    end when the last line of a closed stream assigns a session
    identifier. *)
Definition outcome_of_text (e : stream_end) (t : jsstring) (sid : json)
    : json * list json * completion :=
  match e with
  | Closed =>
      (last (ids_in_line_order t) sid,
       messages_in_line_order t,
       match of_last_line id_of (last_line t) with
       | [] => Returned
       | _ :: _ => OutOfFuel
       end)
  | Errored err =>
      (last (flat_map (of_line id_of) (complete_lines t)) sid,
       flat_map (of_line message_of) (complete_lines t)
       ++ [error_message (error_content err)],
       Returned)
  end.

End Protocol.

Definition add_reads (n : nat) (st : gen_state) : gen_state :=
  {| currentSessionId := currentSessionId st;
     yielded := yielded st;
     reads := n + reads st |}.

(** A value the consumer may be given: one without a [sessionId]. *)
Definition no_sessionId (m : json) : Prop :=
  js_in k_sessionId m <> Some true.

(** A text of the examples as a JavaScript string. *)
Definition text_of (s : string) : jsstring :=
  map Byte.to_N (bytes s).

(** ** Calls of [streamQuery] one after the other *)

(** An ok response with status [st] whose body delivers [cs] and then
    ends as [e] says. *)
Definition streamed (st : Z) (cs : list (list byte)) (e : stream_end)
    : fetch_result :=
  Resolved {| Fetch.status := st;
              Fetch.body := Some {| chunks := cs; ending := e |} |}.

(** The iterations of the read loop a response has chunks for. *)
Definition reads_needed (net : fetch_result) : nat :=
  match net with
  | Resolved r =>
      match Fetch.body r with
      | Some b => List.length (chunks b)
      | None => 0
      end
  | Rejected _ => 0
  end.

(** The ways a call fails: [fetch] rejects, the status is not ok, the body
    is null, or reading the body throws. *)
Definition fetch_fails (net : fetch_result) : bool :=
  match net with
  | Rejected _ => true
  | Resolved r =>
      if Fetch.ok r then
        match Fetch.body r with
        | None => true
        | Some b =>
            match ending b with
            | Errored _ => true
            | Closed => false
            end
        end
      else true
  end.

Record call : Type := {
  call_fuel : nat;
  call_query : jsstring;
  call_net : fetch_result
}.

Section Session.

Context {env : Platform}.

(** The session identifiers a response makes the client store, in
    order. *)
Definition ids_received (net : fetch_result) : list json :=
  match net with
  | Rejected _ => []
  | Resolved r =>
      if Fetch.ok r then
        match Fetch.body r with
        | None => []
        | Some b =>
            let t := stream_text (chunks b) in
            match ending b with
            | Closed => ids_in_line_order t
            | Errored _ =>
                flat_map (of_line id_of) (complete_lines t)
            end
        end
      else []
  end.

(** The calls [cs] made in turn, the module starting with
    [currentSessionId = sid]. *)
Fixpoint calls_from (sid : json) (cs : list call)
    : list (QueryRequest * (gen_state * completion)) :=
  match cs with
  | [] => []
  | c :: cs' =>
      let r := streamQuery
                 (call_fuel c) (call_query c) (call_net c) sid in
      r :: calls_from (currentSessionId (fst (snd r))) cs'
  end.

(** [let currentSessionId: string | null = null] (line 15) *)
Definition session (cs : list call)
    : list (QueryRequest * (gen_state * completion)) :=
  calls_from JNull cs.

End Session.

(** ** The model on the platform's decoder and parser *)

#[local] Instance browser : Platform := {
  decoder := Utf8.state;
  decoder_new := Utf8.new;
  decode_byte := Utf8.decode_byte;
  JSON_parse := Json.parse
}.

Definition streamQuery_utf8 :=
  streamQuery (env := browser).

Definition handleSubmit_utf8 :=
  handleSubmit (env := browser).

Definition stream_text_utf8 := stream_text (env := browser).

(** A response of the server in three chunks, the second cut inside the
    two bytes of a letter: a session identifier, a status, a line that is
    not JSON, and the answer without a final newline. *)
Definition sample_chunks : list (list byte) :=
  [bytes ("{'sessionId':'abc'}" ++ LF ++ "{'type':'status',")%string
   ++ bytes "'content':'Searching caf" ++ [xc3];
   [xa9] ++ bytes ("'}" ++ LF ++ "not json" ++ LF)%string;
   bytes "{'type':'content','content':'done'}"].

Definition status_searching : json :=
  JObj [(k_type, JStr (text_of "status"));
        (k_content, JStr (text_of "Searching caf" ++ [233%N]))].

Definition content_done : json :=
  JObj [(k_type, JStr (text_of "content"));
        (k_content, JStr (text_of "done"))].

(** A response that ends with a session identifier and no newline. *)
Definition final_sessionId_chunks : list (list byte) :=
  [bytes "{'sessionId':'abc'}"].

(** A body that fails while it is read. *)
Definition broken_body : fetch_result :=
  streamed 200 [bytes ("{'type':'status','content':'Searching'}" ++ LF)%string]
           (Errored (ErrorObject (text_of "network error"))).

(** Two calls: the first receives [sample_chunks], the second is rejected
    by the network. *)
Definition sample_calls : list call :=
  [{| call_fuel := 4; call_query := text_of "first";
      call_net := streamed 200 sample_chunks Closed |};
   {| call_fuel := 1; call_query := text_of "second";
      call_net := Rejected NonError |}].

Definition sample_session :=
  session (env := browser) sample_calls.

Definition no_run : QueryRequest * (gen_state * completion) :=
  ({| query := []; sessionId := JNull; max_results := None |},
   ({| currentSessionId := JNull; yielded := []; reads := 0 |}, OutOfFuel)).

(** The component with a question typed in. *)
Definition typed_ui : ui_state :=
  {| messages := []; input := text_of "  what is new?  ";
     isLoading := false |}.

Definition blank_ui : ui_state :=
  {| messages := []; input := text_of "   "; isLoading := false |}.

(** Two lines of the protocol: a status ended by a newline, and a
    content message. *)
Definition line_a : string :=
  ("{'type':'status','content':'a'}" ++ LF)%string.

Definition line_b : string := "{'type':'content','content':'b'}".

(** ** The rest of ChatInterface.tsx *)

Definition k_role : jsstring := lit "role".

(** The callback of [parsedMessages.map] (lines 28-31).  [None] stands
    for the TypeError of reading a property of null; on any other value
    a property that is not there reads as undefined. *)
Definition format_stored (msg : json) : option Message :=
  match msg with
  | JNull => None
  | _ =>
      Some {| text := Value (get_prop k_content msg);
              isAI := match get_prop k_role msg with
                      | Some (JStr s) => str_eqb s (lit "assistant")
                      | _ => false
                      end;
              status := None |}
  end.

(** [Array.prototype.map] with a callback that may throw. *)
Fixpoint map_stored (l : list json) : option (list Message) :=
  match l with
  | [] => Some []
  | msg :: l' =>
      match format_stored msg with
      | None => None
      | Some m =>
          match map_stored l' with
          | None => None
          | Some ms => Some (m :: ms)
          end
      end
  end.

Section Mount.

Context {env : Platform}.

(** The effect that runs when the component is mounted (lines 23-37):
    [storedMessages] is what [localStorage.getItem] returns, [prev] the
    messages of the state.  A value that is not an array has no [map]
    to call; that TypeError, the one of the callback and the SyntaxError
    of [JSON.parse] are caught and only logged. *)
Definition load_stored (storedMessages : option jsstring)
    (prev : list Message) : list Message :=
  match storedMessages with
  | None => prev
  | Some s =>
      if nonempty s then
        match JSON_parse s with
        | Some (JArr parsedMessages) =>
            match map_stored parsedMessages with
            | Some formattedMessages => formattedMessages
            | None => prev
            end
        | Some _ => prev
        | None => prev
        end
      else prev
  end.

(** The component once mounted: [useState([])], then the effect. *)
Definition mounted (storedMessages : option jsstring) : chat :=
  chat_init (load_stored storedMessages []).

End Mount.

Record KeyboardEvent : Type := {
  key : jsstring;
  shiftKey : bool
}.

(** [handleKeyDown] (lines 94-99), up to the call of [streamQuery]. *)
Definition handleKeyDown (e : KeyboardEvent) (u : ui_state)
    : ui_state * option jsstring :=
  if str_eqb (key e) (lit "Enter") && negb (shiftKey e)
  then handleSubmit_begin u
  else (u, None).

(** [disabled={isLoading || !input.trim()}] of the Send button
    (line 177). *)
Definition send_disabled (u : ui_state) : bool :=
  isLoading u || negb (nonempty (trim (input u))).

(** ** ChatMessage.tsx: the code blocks of an answer *)

(** The class [\w] of a regular expression. *)
Definition is_word_char (c : code_unit) : bool :=
  ((48 <=? c) && (c <=? 57) || (65 <=? c) && (c <=? 90)
   || (97 <=? c) && (c <=? 122) || (c =? 95))%N.

(** The longest run of word characters at the start of [s]. *)
Fixpoint word_run (s : jsstring) : jsstring :=
  match s with
  | [] => []
  | c :: r => if is_word_char c then c :: word_run r else []
  end.

(** What follows [p] when [s] starts with [p]. *)
Fixpoint after_prefix (p s : jsstring) : option jsstring :=
  match p, s with
  | [], _ => Some s
  | a :: p', b :: s' => if (a =? b)%N then after_prefix p' s' else None
  | _ :: _, [] => None
  end.

(** The first group of [/language-(\w+)/.exec(s)]: the search starts at
    every index in turn, and the group takes all the word characters it
    finds. *)
Fixpoint exec_language (s : jsstring) : option jsstring :=
  match s with
  | [] => None
  | _ :: r =>
      match after_prefix (lit "language-") s with
      | Some rest =>
          match word_run rest with
          | [] => exec_language r
          | w => Some w
          end
      | None => exec_language r
      end
  end.

(** [s.replace(/\n$/, '')] *)
Fixpoint strip_final_newline (s : jsstring) : jsstring :=
  match s with
  | [] => []
  | c :: r =>
      match r with
      | [] => if (c =? newline)%N then [] else [c]
      | _ :: _ => c :: strip_final_newline r
      end
  end.

(** What the [code] component renders (lines 52-70 of the file): a
    highlighted block in the language of the class name, or the inline
    element with its children. *)
Inductive code_view : Type :=
| Highlighted (language code : jsstring)
| Inline (className : option jsstring) (children : jsstring).

Definition code (className : option jsstring) (children : jsstring)
    : code_view :=
  match exec_language (or_empty className) with
  | Some language => Highlighted language (strip_final_newline children)
  | None => Inline className children
  end.

(** ** More on [streamQuery] *)

(** The content of the one message of a call that fails before its body
    is read, if it fails so. *)
Definition fails_before_body (net : fetch_result) : option jsstring :=
  match net with
  | Rejected e => Some (error_content e)
  | Resolved r =>
      if Fetch.ok r then
        match Fetch.body r with
        | None => Some (lit "Response body is null")
        | Some _ => None
        end
      else if (Fetch.status r =? 429)%Z then Some too_many_requests
      else Some (lit "Network response was not ok")
  end.

(** A value on which a property can be read: an object or an array. *)
Definition is_object (m : json) : bool :=
  match m with
  | JObj _ => true
  | JArr _ => true
  | _ => false
  end.

(** The lines joined again, each with its newline. *)
Definition join_lines (lines : list jsstring) : jsstring :=
  flat_map (fun l => l ++ [newline]) lines.

(** The entries a stream message leaves in the list for good: what its
    handler appends, unless that is a status. *)
Definition lasting_entries (message : json) : list Message :=
  without_status (on_message message []).

(** A conversation in local storage, and the array it parses to. *)
Definition stored_text : string :=
  "[{'role':'user','content':'hi'},{'role':'assistant','content':'hello'}]".

Definition stored_array : list json :=
  [JObj [(k_role, JStr (text_of "user")); (k_content, JStr (text_of "hi"))];
   JObj [(k_role, JStr (text_of "assistant"));
         (k_content, JStr (text_of "hello"))]].

Definition enter_key : KeyboardEvent :=
  {| key := lit "Enter"; shiftKey := false |}.

(** A status message with an empty content. *)
Definition empty_status : json :=
  JObj [(k_type, JStr (text_of "status")); (k_content, JStr [])].

(** The component mounted on [stored_text], a question typed, rendered
    and sent, and two status messages received. *)
Definition asked : chat :=
  fold_left next
    [Typing (text_of "what is new?"); Render; Submit;
     StreamYield empty_status; StreamYield status_searching]
    (mounted (env := browser) (Some (text_of stored_text))).

(** A question typed and rendered, then two submits before the next
    render. *)
Definition submitted_twice : chat :=
  fold_left next
    [Typing (text_of "what is new?"); Render; Submit; Submit]
    (chat_init []).

(** A question typed, rendered and sent, and the page rendered again. *)
Definition submitted_once : chat :=
  fold_left next
    [Typing (text_of "what is new?"); Render; Submit; Render]
    (chat_init []).

(** A response with status 500 and no body. *)
Definition server_error : fetch_result :=
  Resolved {| Fetch.status := 500; Fetch.body := None |}.

(** * Properties *)

Lemma str_eqb_eq (a b : jsstring) : str_eqb a b = true <-> a = b.
Proof.
  unfold str_eqb. destruct (list_eq_dec N.eq_dec a b); split; congruence.
Qed.

(** ** split and pop *)

Lemma split_not_nil sep s : split sep s <> [].
Proof.
  destruct s as [|c s]; simpl; [discriminate|].
  destruct (N.eqb c sep); [discriminate|].
  destruct (split sep s); discriminate.
Qed.

Lemma pop_last_removelast (A : Type) (d : A) (l : list A) :
  l <> [] -> pop l = (Some (last l d), removelast l).
Proof.
  induction l as [|x r IH]; [congruence|]. intros _.
  destruct r as [|y r']; [reflexivity|].
  change (pop (x :: y :: r')) with (let (o, r0) := pop (y :: r') in (o, x :: r0)).
  rewrite IH by discriminate. reflexivity.
Qed.

Lemma or_empty_some (s : jsstring) : or_empty (Some s) = s.
Proof. destruct s; reflexivity. Qed.

Lemma removelast_cons_head c ls :
  ls <> [] ->
  removelast (cons_head c ls)
  = match removelast ls with
    | [] => []
    | _ :: _ => cons_head c (removelast ls)
    end.
Proof.
  destruct ls as [|l ls]; [congruence|]. intros _.
  destruct ls as [|l' ls]; reflexivity.
Qed.

Lemma last_cons_head c ls :
  ls <> [] ->
  last (cons_head c ls) []
  = match removelast ls with
    | [] => c :: last ls []
    | _ :: _ => last ls []
    end.
Proof.
  destruct ls as [|l ls]; [congruence|]. intros _.
  destruct ls as [|l' ls]; reflexivity.
Qed.

(** Splitting a text that arrives in two parts: the complete lines of the
    first part, then the split of its unfinished line followed by the
    second part. *)
Lemma split_app sep (t1 t2 : jsstring) :
  split sep (t1 ++ t2)
  = removelast (split sep t1) ++ split sep (last (split sep t1) [] ++ t2).
Proof.
  induction t1 as [|c t1 IH]; [reflexivity|].
  simpl. destruct (N.eqb c sep) eqn:E.
  - rewrite IH.
    pose proof (split_not_nil sep t1) as Hne.
    destruct (split sep t1) as [|l ls] eqn:Es; [congruence|].
    reflexivity.
  - rewrite IH.
    pose proof (split_not_nil sep t1) as Hne.
    rewrite removelast_cons_head, last_cons_head by assumption.
    destruct (removelast (split sep t1)) as [|l ls] eqn:Er.
    + simpl. rewrite E. reflexivity.
    + reflexivity.
Qed.

Lemma last_app_right (A : Type) (d : A) (l l' : list A) :
  l' <> [] -> last (l ++ l') d = last l' d.
Proof.
  intros Hne. induction l as [|x l IH]; [reflexivity|].
  simpl. destruct (l ++ l') eqn:E; [|exact IH].
  apply app_eq_nil in E. tauto.
Qed.

Lemma complete_lines_app (t1 t2 : jsstring) :
  complete_lines (t1 ++ t2)
  = complete_lines t1 ++ complete_lines (last_line t1 ++ t2).
Proof.
  unfold complete_lines, last_line. rewrite split_app.
  apply removelast_app, split_not_nil.
Qed.

Lemma last_line_app (t1 t2 : jsstring) :
  last_line (t1 ++ t2) = last_line (last_line t1 ++ t2).
Proof.
  unfold last_line. rewrite split_app at 1.
  apply last_app_right, split_not_nil.
Qed.

(** ** The read loop *)

(** The cases of [handle_line] on a line: blank, not JSON, not an object,
    an object with a [sessionId], an object without. *)
Ltac line_cases line :=
  unfold handle_line;
  destruct (nonempty (trim line));
  [ destruct (JSON_parse line) as [?m|];
    [ destruct (js_in k_sessionId _) as [[|]|] eqn:?Hin | ]
  | ].

Section ReadLoop.

Context {env : Platform}.

Lemma decode_app (d : decoder) (a b : list byte) :
  decode d (a ++ b)
  = (fst (decode (fst (decode d a)) b),
     snd (decode d a) ++ snd (decode (fst (decode d a)) b)).
Proof.
  revert d. induction a as [|x a IH]; intros d; simpl.
  - destruct (decode d b); reflexivity.
  - destruct (decode_byte d x) as [d1 s1]. rewrite IH.
    destruct (decode d1 a) as [d2 s2]. simpl.
    now rewrite app_assoc.
Qed.

(** What one line does to the generator. *)
Lemma handle_line_yielded st line :
  yielded (handle_line st line) = yielded st ++ of_line message_of line.
Proof.
  unfold of_line, message_of. line_cases line; simpl; now rewrite ?app_nil_r.
Qed.

Lemma handle_line_session st line :
  currentSessionId (handle_line st line)
  = last (of_line id_of line) (currentSessionId st).
Proof. unfold of_line, id_of. line_cases line; reflexivity. Qed.

Lemma handle_line_add_reads n st line :
  handle_line (add_reads n st) line = add_reads n (handle_line st line).
Proof. line_cases line; reflexivity. Qed.

Lemma for_lines_add_reads n lines st :
  fold_left handle_line lines (add_reads n st)
  = add_reads n (fold_left handle_line lines st).
Proof.
  revert st. induction lines as [|l ls IH]; intros st; [reflexivity|].
  simpl. now rewrite handle_line_add_reads, IH.
Qed.

Lemma last_app_default (A : Type) (l1 l2 : list A) (d : A) :
  last (l1 ++ l2) d = last l2 (last l1 d).
Proof.
  destruct l2 as [|x l2].
  - now rewrite app_nil_r.
  - rewrite last_app_right by discriminate.
    generalize (last l1 d) as d'. revert x.
    induction l2 as [|y l2 IH]; intros x d'; [reflexivity|].
    change (last (x :: y :: l2) d) with (last (y :: l2) d).
    change (last (x :: y :: l2) d') with (last (y :: l2) d').
    apply IH.
Qed.

Lemma for_lines_yielded lines st :
  yielded (fold_left handle_line lines st)
  = yielded st ++ flat_map (of_line message_of) lines.
Proof.
  revert st. induction lines as [|l ls IH]; intros st; simpl.
  - now rewrite app_nil_r.
  - now rewrite IH, handle_line_yielded, app_assoc.
Qed.

Lemma for_lines_session lines st :
  currentSessionId (fold_left handle_line lines st)
  = last (flat_map (of_line id_of) lines) (currentSessionId st).
Proof.
  revert st. induction lines as [|l ls IH]; intros st; simpl.
  - reflexivity.
  - now rewrite IH, handle_line_session, last_app_default.
Qed.

(** After the chunks are read the loop stands at the end of the stream
    with the unfinished line in its buffer, and has handled the complete
    lines of the text in order. *)
Lemma read_loop_chunks cs : forall fuel e d t0 st,
  read_loop (List.length cs + fuel) {| chunks := cs; ending := e |} d
            (last_line t0)
            (fold_left handle_line (complete_lines t0) st)
  = read_loop fuel {| chunks := []; ending := e |}
              (fst (decode d (List.concat cs)))
              (last_line (t0 ++ snd (decode d (List.concat cs))))
              (add_reads (List.length cs)
                 (fold_left handle_line
                    (complete_lines (t0 ++ snd (decode d (List.concat cs))))
                    st)).
Proof.
  induction cs as [|c cs IH]; intros fuel e d t0 st.
  - simpl. rewrite app_nil_r.
    destruct (fold_left handle_line (complete_lines t0) st); reflexivity.
  - cbn [List.length Nat.add List.concat].
    rewrite decode_app.
    cbn [read_loop Fetch.reader_read Fetch.chunks Fetch.ending fst snd].
    destruct (decode d c) as [d1 t1] eqn:Ed. cbn [fst snd].
    rewrite (pop_last_removelast (@nil code_unit)) by apply split_not_nil.
    rewrite or_empty_some.
    change (last (split newline (last_line t0 ++ t1)) [])
      with (last_line (last_line t0 ++ t1)).
    change (removelast (split newline (last_line t0 ++ t1)))
      with (complete_lines (last_line t0 ++ t1)).
    rewrite <- last_line_app.
    change (count_read (fold_left handle_line (complete_lines t0) st))
      with (add_reads 1 (fold_left handle_line (complete_lines t0) st)).
    rewrite <- for_lines_add_reads, <- fold_left_app.
    rewrite <- complete_lines_app.
    rewrite IH. rewrite <- !app_assoc.
    rewrite for_lines_add_reads.
    f_equal. unfold add_reads; simpl. f_equal. lia.
Qed.

(** At the end of a closed stream whose buffer assigns a session
    identifier the loop never leaves: each iteration stores the
    identifier and starts over. *)
Lemma read_loop_end_stuck fuel : forall d buffer m st,
  nonempty buffer = true ->
  JSON_parse buffer = Some m ->
  js_in k_sessionId m = Some true ->
  read_loop (S fuel) {| chunks := []; ending := Closed |} d buffer st
  = (set_session (sessionId_of m) (add_reads (S fuel) st), OutOfFuel).
Proof.
  induction fuel as [|fuel IH]; intros d buffer m st Hb Hp Hin.
  - simpl. rewrite Hb, Hp, Hin. reflexivity.
  - change (read_loop (S (S fuel)) {| chunks := []; ending := Closed |}
                      d buffer st)
      with (if nonempty buffer then
              match JSON_parse buffer with
              | Some message =>
                  match js_in k_sessionId message with
                  | Some true =>
                      read_loop (S fuel) {| chunks := []; ending := Closed |}
                        d buffer
                        (set_session (sessionId_of message) (count_read st))
                  | Some false => (yield message (count_read st), Returned)
                  | None => (count_read st, Returned)
                  end
              | None => (count_read st, Returned)
              end
            else (count_read st, Returned)).
    rewrite Hb, Hp, Hin, (IH d buffer m) by assumption.
    unfold set_session, add_reads, count_read; simpl.
    do 3 f_equal. lia.
Qed.

(** The end of the stream, seen by the consumer. *)
Lemma read_loop_end fuel e d buffer st :
  observe (read_loop (S fuel) {| chunks := []; ending := e |} d buffer st)
  = match e with
    | Closed =>
        (last (of_last_line id_of buffer) (currentSessionId st),
         yielded st ++ of_last_line message_of buffer,
         match of_last_line id_of buffer with
         | [] => Returned
         | _ :: _ => OutOfFuel
         end)
    | Errored err => (currentSessionId st, yielded st, Thrown err)
    end.
Proof.
  destruct e as [|err]; [|reflexivity].
  unfold of_last_line, id_of, message_of.
  destruct (nonempty buffer) eqn:Hb.
  - destruct (JSON_parse buffer) as [m|] eqn:Hp.
    + destruct (js_in k_sessionId m) as [[|]|] eqn:Hin.
      * rewrite (@read_loop_end_stuck fuel d buffer m st Hb Hp Hin).
        unfold observe; simpl. now rewrite app_nil_r.
      * simpl. rewrite Hb, Hp, Hin. reflexivity.
      * simpl. rewrite Hb, Hp, Hin.
        unfold observe; simpl. now rewrite app_nil_r.
    + simpl. rewrite Hb, Hp. unfold observe; simpl. now rewrite app_nil_r.
  - simpl. rewrite Hb. unfold observe; simpl. now rewrite app_nil_r.
Qed.

(** A whole body, with fuel for one iteration per chunk and one more. *)
Lemma read_loop_observe fuel cs e st :
  List.length cs < fuel ->
  observe (read_loop fuel {| chunks := cs; ending := e |} decoder_new [] st)
  = match e with
    | Closed =>
        (last (ids_in_line_order (stream_text cs))
              (currentSessionId st),
         yielded st ++ messages_in_line_order (stream_text cs),
         match of_last_line id_of (last_line (stream_text cs)) with
         | [] => Returned
         | _ :: _ => OutOfFuel
         end)
    | Errored err =>
        (last (flat_map (of_line id_of) (complete_lines (stream_text cs)))
              (currentSessionId st),
         yielded st
         ++ flat_map (of_line message_of) (complete_lines (stream_text cs)),
         Thrown err)
    end.
Proof.
  intros Hfuel.
  replace fuel with (List.length cs + S (fuel - S (List.length cs))) by lia.
  pose proof (read_loop_chunks cs (S (fuel - S (List.length cs))) e
                decoder_new [] st) as H.
  change (last_line []) with (@nil code_unit) in H.
  change (fold_left handle_line (complete_lines []) st) with st in H.
  rewrite H. clear H. rewrite read_loop_end. cbn [List.app].
  fold (stream_text cs).
  unfold ids_in_line_order, messages_in_line_order, add_reads; simpl.
  rewrite for_lines_session, for_lines_yielded.
  destruct e; [|reflexivity].
  now rewrite last_app_default, app_assoc.
Qed.

(** A call whose response is ok and has a body. *)
Lemma streamQuery_observe fuel q st cs e sid :
  (200 <=? st)%Z && (st <=? 299)%Z = true ->
  List.length cs < fuel ->
  observe (snd (streamQuery fuel q
                  (Resolved {| Fetch.status := st;
                               Fetch.body :=
                                 Some {| chunks := cs; ending := e |} |})
                  sid))
  = outcome_of_text e (stream_text cs) sid.
Proof.
  intros Hok Hfuel.
  unfold streamQuery, try_block, Fetch.ok. cbn [snd Fetch.status Fetch.body].
  rewrite Hok. cbn [negb].
  pose proof (@read_loop_observe fuel cs e
                {| currentSessionId := sid; yielded := []; reads := 0 |}
                Hfuel) as H.
  destruct (read_loop fuel {| chunks := cs; ending := e |} decoder_new []
              {| currentSessionId := sid; yielded := []; reads := 0 |})
    as [st' c] eqn:Er.
  unfold observe in H; cbn [fst snd currentSessionId yielded] in H.
  destruct e as [|err]; simpl in H.
  - injection H as H1 H2 H3. subst c.
    unfold outcome_of_text.
    destruct (of_last_line id_of (last_line (stream_text cs)));
      unfold observe; simpl; now rewrite H1, H2.
  - injection H as H1 H2 H3. subst c.
    unfold outcome_of_text, observe, catch_block; simpl. now rewrite H1, H2.
Qed.

End ReadLoop.

(** ** Claims on [streamQuery] *)

Section StreamQueryClaims.

Context {env : Platform}.

Lemma stream_text_whole cs :
  stream_text [List.concat cs] = stream_text cs.
Proof.
  unfold stream_text. simpl. now rewrite app_nil_r.
Qed.

(** C1: for every finite body of an ok response and every way of cutting
    it into chunks, [streamQuery] yields the messages of the lines of the
    body in the order of the lines, and yields the same sequence, leaves
    the same session identifier and ends the same way as when the body
    arrives in one chunk. *)
Theorem streamQuery_chunking_independent
    (cs : list (list byte)) (fuel fuel' : nat) (q : jsstring)
    (sid : json) (st : Z) :
  (200 <=? st)%Z && (st <=? 299)%Z = true ->
  List.length cs < fuel ->
  1 < fuel' ->
  let chunked := snd (streamQuery fuel q (streamed st cs Closed) sid) in
  let whole :=
    snd (streamQuery fuel' q (streamed st [List.concat cs] Closed) sid) in
  yielded (fst chunked)
    = messages_in_line_order (stream_text cs)
  /\ yielded (fst chunked) = yielded (fst whole)
  /\ currentSessionId (fst chunked) = currentSessionId (fst whole)
  /\ snd chunked = snd whole.
Proof.
  intros Hok Hfuel Hfuel' chunked whole.
  assert (Hc : observe chunked = outcome_of_text Closed (stream_text cs) sid)
    by (apply streamQuery_observe; assumption).
  assert (Hw : observe whole = outcome_of_text Closed (stream_text cs) sid).
  { rewrite <- stream_text_whole. apply streamQuery_observe; simpl; assumption. }
  rewrite <- Hw in Hc. unfold observe in Hc, Hw.
  injection Hc as H1 H2 H3. injection Hw as _ H4 _.
  repeat split; congruence.
Qed.

(** C3: on a response with status 429 [streamQuery] yields the one error
    message that asks to wait a minute, returns, and has not read from a
    body. *)
Theorem streamQuery_429 (fuel : nat) (q : jsstring) (sid : json)
    (b : option ReadableStream) :
  let r := snd (streamQuery fuel q
                  (Resolved {| Fetch.status := 429; Fetch.body := b |}) sid) in
  yielded (fst r) = [error_message too_many_requests]
  /\ snd r = Returned
  /\ reads (fst r) = 0.
Proof. repeat split. Qed.

Lemma last_is_error_app (ys : list json) (c : jsstring) :
  exists ys' c', ys ++ [error_message c] = ys' ++ [error_message c'].
Proof. now exists ys, c. Qed.

(** C4: no run of [streamQuery] ends by throwing; and when the call
    fails (fetch rejects, the status is not ok, the body is null, or a
    read throws) the run returns and the last value it yielded is an
    error message. *)
Theorem streamQuery_never_throws (fuel : nat) (q : jsstring)
    (net : fetch_result) (sid : json) :
  let r := snd (streamQuery fuel q net sid) in
  (forall e, snd r <> Thrown e)
  /\ (fetch_fails net = true ->
      reads_needed net < fuel ->
      snd r = Returned
      /\ exists ys c, yielded (fst r) = ys ++ [error_message c]).
Proof.
  cbv zeta. split.
  - intros e. unfold streamQuery. cbn [snd].
    destruct (try_block fuel q net _)
      as [st' [|e'|]]; cbn [snd]; discriminate.
  - intros Hfail Hfuel.
    unfold streamQuery, try_block. cbn [snd].
    destruct net as [e|r]; cbn [fetch_fails reads_needed] in *.
    + split; [reflexivity|]. now exists [], (error_content e).
    + destruct (Fetch.ok r) eqn:Hok; cbn [negb].
      * destruct (Fetch.body r) as [[cs en]|] eqn:Hb.
        -- destruct en as [|err]; [discriminate|].
           cbn [chunks] in Hfuel.
           pose proof (@read_loop_observe _ fuel cs (Errored err)
                         {| currentSessionId := sid; yielded := [];
                            reads := 0 |} Hfuel) as H.
           destruct (read_loop fuel _ decoder_new [] _) as [st' c].
           unfold observe in H. cbn [fst snd] in H.
           injection H as _ H2 H3. subst c. cbn [fst snd].
           split; [reflexivity|]. unfold catch_block, yield; simpl.
           apply last_is_error_app.
        -- split; [reflexivity|].
           now exists [], (lit "Response body is null").
      * destruct (Fetch.status r =? 429)%Z.
        -- split; [reflexivity|]. now exists [], too_many_requests.
        -- split; [reflexivity|].
           now exists [], (lit "Network response was not ok").
Qed.

(** ** The session identifier *)

Lemma error_message_no_sessionId c : no_sessionId (error_message c).
Proof. unfold no_sessionId. vm_compute. discriminate. Qed.

Lemma yield_no_sessionId m st :
  no_sessionId m ->
  Forall no_sessionId (yielded st) ->
  Forall no_sessionId (yielded (yield m st)).
Proof.
  intros Hm Hst. unfold yield; simpl.
  apply Forall_app. split; [assumption|]. now constructor.
Qed.

Lemma handle_line_no_sessionId st line :
  Forall no_sessionId (yielded st) ->
  Forall no_sessionId (yielded (handle_line st line)).
Proof.
  intros Hst. line_cases line; try assumption.
  apply yield_no_sessionId; [|assumption].
  unfold no_sessionId. congruence.
Qed.

Lemma for_lines_no_sessionId lines : forall st,
  Forall no_sessionId (yielded st) ->
  Forall no_sessionId
    (yielded (fold_left handle_line lines st)).
Proof.
  induction lines as [|l ls IH]; intros st Hst; [assumption|].
  simpl. now apply IH, handle_line_no_sessionId.
Qed.

Lemma read_loop_no_sessionId fuel : forall reader d buffer st,
  Forall no_sessionId (yielded st) ->
  Forall no_sessionId (yielded (fst (read_loop fuel reader d buffer st))).
Proof.
  induction fuel as [|fuel IH]; intros reader d buffer st Hst;
    [assumption|].
  cbn [read_loop].
  destruct (Fetch.reader_read reader) as [value reader'| |e].
  - destruct (decode d value) as [d' t].
    destruct (pop (split newline (buffer ++ t))) as [o lines].
    apply IH, for_lines_no_sessionId. assumption.
  - destruct (nonempty buffer); [|assumption].
    destruct (JSON_parse buffer) as [m|]; [|assumption].
    destruct (js_in k_sessionId m) as [[|]|] eqn:Hin; try assumption.
    + apply IH. assumption.
    + apply yield_no_sessionId; [|assumption].
      unfold no_sessionId. congruence.
  - assumption.
Qed.

Lemma streamQuery_no_sessionId fuel q net sid :
  Forall no_sessionId (yielded (fst (snd (streamQuery fuel q net sid)))).
Proof.
  unfold streamQuery. cbn [snd].
  assert (H : Forall no_sessionId
                (yielded (fst (try_block
                                 fuel q net
                                 {| currentSessionId := sid; yielded := [];
                                    reads := 0 |})))).
  { unfold try_block. destruct net as [e|r]; [constructor|].
    destruct (negb (Fetch.ok r)).
    - destruct (Fetch.status r =? 429)%Z; [|constructor].
      apply yield_no_sessionId; [apply error_message_no_sessionId|constructor].
    - destruct (Fetch.body r) as [b|]; [|constructor].
      apply read_loop_no_sessionId. constructor. }
  destruct (try_block _ _ _ _) as [st' [|e|]]; cbn [fst] in *;
    try assumption.
  apply yield_no_sessionId; [apply error_message_no_sessionId|assumption].
Qed.

Lemma streamQuery_session_after fuel q net sid :
  reads_needed net < fuel ->
  currentSessionId (fst (snd (streamQuery fuel q net sid)))
  = last (ids_received net) sid.
Proof.
  intros Hfuel. destruct net as [e|r]; [reflexivity|].
  destruct r as [st [[cs en]|]].
  - destruct ((200 <=? st)%Z && (st <=? 299)%Z) eqn:Hok.
    + cbn [reads_needed Fetch.body chunks] in Hfuel.
      pose proof (@streamQuery_observe _ fuel q st cs en sid Hok Hfuel) as H.
      unfold observe in H.
      unfold ids_received, Fetch.ok. cbn [Fetch.status Fetch.body chunks ending].
      rewrite Hok.
      destruct en; unfold outcome_of_text in H; injection H as H1 _ _; exact H1.
    + unfold ids_received, streamQuery, try_block, Fetch.ok.
      cbn [Fetch.status Fetch.body snd]. rewrite Hok. cbn [negb].
      destruct (st =? 429)%Z; reflexivity.
  - unfold ids_received, streamQuery, try_block, Fetch.ok.
    cbn [Fetch.status Fetch.body snd].
    destruct ((200 <=? st)%Z && (st <=? 299)%Z); cbn [negb];
      [reflexivity|].
    destruct (st =? 429)%Z; reflexivity.
Qed.

(** C2: [streamQuery] never yields a value that has a [sessionId]; the
    identifiers of the lines that carry one are stored in the module
    instead, so that in any sequence of calls the [sessionId] of each
    request is the identifier received last in the earlier responses,
    and null when none was received. *)
Theorem streamQuery_session_identifier (cs : list call) (i : nat)
    (request : QueryRequest) (r : gen_state * completion) :
  Forall (fun c => reads_needed (call_net c) < call_fuel c) cs ->
  nth_error (session cs) i
    = Some (request, r) ->
  sessionId request
    = last (flat_map (fun c => ids_received (call_net c)) (firstn i cs))
           JNull
  /\ Forall (fun m => js_in k_sessionId m <> Some true) (yielded (fst r)).
Proof.
  unfold session. generalize JNull as sid. revert i request r.
  induction cs as [|c cs IH]; intros i request r sid Hfuel Hnth.
  - destruct i; discriminate.
  - inversion Hfuel as [|c' cs' Hc Hcs]; subst.
    destruct i as [|i]; cbn [calls_from nth_error] in Hnth.
    + injection Hnth as <- <-. split; [reflexivity|].
      apply streamQuery_no_sessionId.
    + destruct (IH _ _ _ _ Hcs Hnth) as [H1 H2]. split; [|exact H2].
      rewrite H1, streamQuery_session_after by assumption.
      cbn [firstn flat_map]. now rewrite last_app_default.
Qed.

(** ** Termination *)

Lemma read_loop_short fuel : forall cs e d buffer st,
  fuel <= List.length cs ->
  snd (read_loop fuel {| chunks := cs; ending := e |} d buffer st)
  = OutOfFuel.
Proof.
  induction fuel as [|fuel IH]; intros cs e d buffer st Hle;
    [reflexivity|].
  destruct cs as [|c cs]; [simpl in Hle; lia|].
  cbn [read_loop Fetch.reader_read chunks ending].
  destruct (decode d c) as [d' t].
  destruct (pop (split newline (buffer ++ t))) as [o lines].
  apply IH. simpl in Hle. lia.
Qed.

(** With fuel for every chunk and one more iteration, a closed stream
    whose last line assigns no session identifier makes the generator
    return. *)
Lemma streamQuery_returns fuel q st cs sid :
  (200 <=? st)%Z && (st <=? 299)%Z = true ->
  List.length cs < fuel ->
  of_last_line id_of (last_line (stream_text cs)) = [] ->
  snd (snd (streamQuery fuel q (streamed st cs Closed) sid)) = Returned.
Proof.
  intros Hok Hfuel Hlast.
  pose proof (@streamQuery_observe _ fuel q st cs Closed sid Hok Hfuel) as H.
  unfold observe, outcome_of_text in H. rewrite Hlast in H.
  injection H as _ _ H. exact H.
Qed.

(** C8 on the code: when the text after the last newline of a closed
    stream parses to an object with a [sessionId], no number of
    iterations brings the generator to its end. *)
Theorem streamQuery_never_returns_on_final_sessionId
    (fuel : nat) (q : jsstring) (st : Z) (cs : list (list byte))
    (sid m : json) :
  (200 <=? st)%Z && (st <=? 299)%Z = true ->
  nonempty (last_line (stream_text cs)) = true ->
  JSON_parse (last_line (stream_text cs)) = Some m ->
  js_in k_sessionId m = Some true ->
  snd (snd (streamQuery fuel q (streamed st cs Closed) sid)) = OutOfFuel.
Proof.
  intros Hok Hne Hp Hin.
  destruct (Nat.le_gt_cases fuel (List.length cs)) as [Hle|Hgt].
  - unfold streamQuery, try_block, streamed, Fetch.ok.
    cbn [snd Fetch.status Fetch.body]. rewrite Hok. cbn [negb].
    pose proof (@read_loop_short fuel cs Closed decoder_new []
                  {| currentSessionId := sid; yielded := []; reads := 0 |}
                  Hle) as H.
    destruct (read_loop fuel _ decoder_new [] _) as [st' c].
    cbn [snd] in H. subst c. reflexivity.
  - pose proof (@streamQuery_observe _ fuel q st cs Closed sid Hok Hgt) as H.
    unfold observe, outcome_of_text, of_last_line, id_of in H.
    rewrite Hne, Hp, Hin in H.
    injection H as _ _ H. exact H.
Qed.

(** ** Lines that are not JSON *)

Lemma split_line (bad t : jsstring) :
  ~ In newline bad ->
  split newline (bad ++ newline :: t) = bad :: split newline t.
Proof.
  induction bad as [|c bad IH]; intros Hnl; [reflexivity|].
  cbn [List.app split].
  destruct (N.eqb_spec c newline) as [->|Hc].
  - exfalso. apply Hnl. now left.
  - rewrite IH; [reflexivity|]. intros Hin. apply Hnl. now right.
Qed.

Lemma split_no_newline (bad : jsstring) :
  ~ In newline bad -> split newline bad = [bad].
Proof.
  induction bad as [|c bad IH]; intros Hnl; [reflexivity|].
  cbn [split].
  destruct (N.eqb_spec c newline) as [->|Hc].
  - exfalso. apply Hnl. now left.
  - rewrite IH; [reflexivity|]. intros Hin. apply Hnl. now right.
Qed.

Lemma outcome_skips_line e t1 bad t2 sid :
  last_line t1 = [] ->
  ~ In newline bad ->
  JSON_parse bad = None ->
  outcome_of_text e (t1 ++ bad ++ newline :: t2) sid
  = outcome_of_text e (t1 ++ t2) sid.
Proof.
  intros Ht1 Hnl Hbad.
  assert (Hc : complete_lines (t1 ++ bad ++ newline :: t2)
               = complete_lines t1 ++ bad :: complete_lines t2).
  { rewrite complete_lines_app, Ht1. cbn [List.app].
    unfold complete_lines at 2. rewrite split_line by assumption.
    pose proof (split_not_nil newline t2).
    f_equal. unfold complete_lines.
    destruct (split newline t2); [congruence|reflexivity]. }
  assert (Hl : last_line (t1 ++ bad ++ newline :: t2) = last_line t2).
  { rewrite last_line_app, Ht1. cbn [List.app].
    unfold last_line. rewrite split_line by assumption.
    pose proof (split_not_nil newline t2).
    cbn [last]. destruct (split newline t2); [congruence|reflexivity]. }
  assert (Hc' : complete_lines (t1 ++ t2)
                = complete_lines t1 ++ complete_lines t2)
    by (now rewrite complete_lines_app, Ht1).
  assert (Hl' : last_line (t1 ++ t2) = last_line t2)
    by (now rewrite last_line_app, Ht1).
  assert (Hm : of_line message_of bad = [])
    by (unfold of_line, message_of; rewrite Hbad; now destruct (nonempty _)).
  assert (Hi : of_line id_of bad = [])
    by (unfold of_line, id_of; rewrite Hbad; now destruct (nonempty _)).
  unfold outcome_of_text, ids_in_line_order, messages_in_line_order.
  rewrite Hc, Hl, Hc', Hl', !flat_map_app. cbn [flat_map].
  rewrite Hm, Hi. reflexivity.
Qed.

Lemma outcome_skips_last_line e t1 bad sid :
  last_line t1 = [] ->
  ~ In newline bad ->
  JSON_parse bad = None ->
  outcome_of_text e (t1 ++ bad) sid = outcome_of_text e t1 sid.
Proof.
  intros Ht1 Hnl Hbad.
  assert (Hc : complete_lines (t1 ++ bad) = complete_lines t1).
  { rewrite complete_lines_app, Ht1. cbn [List.app].
    unfold complete_lines at 2. rewrite split_no_newline by assumption.
    cbn [removelast]. now rewrite app_nil_r. }
  assert (Hl : last_line (t1 ++ bad) = bad).
  { rewrite last_line_app, Ht1. cbn [List.app].
    unfold last_line. now rewrite split_no_newline. }
  assert (Hm : of_last_line message_of bad = [])
    by (unfold of_last_line, message_of; rewrite Hbad; now destruct (nonempty _)).
  assert (Hi : of_last_line id_of bad = [])
    by (unfold of_last_line, id_of; rewrite Hbad; now destruct (nonempty _)).
  unfold outcome_of_text, ids_in_line_order, messages_in_line_order.
  rewrite Hc, Hl, Ht1, Hm, Hi. reflexivity.
Qed.

(** C9: a line that [JSON.parse] rejects is skipped.  A run over a body
    that holds such a line, between two lines or unfinished at the end,
    yields the same values, leaves the same session identifier and ends
    the same way as a run over the body without it: nothing is yielded
    for the line, no error message either, and the lines after it are
    handled as before. *)
Theorem streamQuery_skips_invalid_line
    (t1 bad : jsstring) (e : stream_end) (st : Z) (q : jsstring)
    (sid : json) :
  (200 <=? st)%Z && (st <=? 299)%Z = true ->
  last_line t1 = [] ->
  ~ In newline bad ->
  JSON_parse bad = None ->
  (forall t2 cs cs' fuel fuel',
      stream_text cs = t1 ++ bad ++ newline :: t2 ->
      stream_text cs' = t1 ++ t2 ->
      List.length cs < fuel ->
      List.length cs' < fuel' ->
      observe (snd (streamQuery fuel q (streamed st cs e) sid))
      = observe (snd (streamQuery fuel' q (streamed st cs' e) sid)))
  /\ (forall cs cs' fuel fuel',
      stream_text cs = t1 ++ bad ->
      stream_text cs' = t1 ->
      List.length cs < fuel ->
      List.length cs' < fuel' ->
      observe (snd (streamQuery fuel q (streamed st cs e) sid))
      = observe (snd (streamQuery fuel' q (streamed st cs' e) sid))).
Proof.
  intros Hok Ht1 Hnl Hbad. split.
  - intros t2 cs cs' fuel fuel' Hcs Hcs' Hf Hf'.
    unfold streamed. rewrite !streamQuery_observe by assumption.
    rewrite Hcs, Hcs'. now apply outcome_skips_line.
  - intros cs cs' fuel fuel' Hcs Hcs' Hf Hf'.
    unfold streamed. rewrite !streamQuery_observe by assumption.
    rewrite Hcs, Hcs'. now apply outcome_skips_last_line.
Qed.

End StreamQueryClaims.

(** ** Claims on the requests and on [handleSubmit] *)

Section HandleSubmitClaims.

Context {env : Platform}.

Lemma nonempty_not_nil (s : jsstring) : nonempty s = true -> s <> [].
Proof. destruct s; [discriminate|]. intros _. discriminate. Qed.

(** C5: [handleSubmit] sends nothing when the input is empty or only
    white space, and a request that is sent carries the trimmed input as
    its query, which is not the empty string. *)
Theorem handleSubmit_query_nonempty (fuel : nat) (net : fetch_result)
    (u : ui_state) (sid : json) :
  (nonempty (trim (input u)) = false ->
   handleSubmit fuel net u sid = (u, sid, None))
  /\ (forall u' sid' request,
       handleSubmit fuel net u sid = (u', sid', Some request) ->
       query request = trim (input u) /\ query request <> []).
Proof.
  unfold handleSubmit, handleSubmit_begin. split.
  - intros H. rewrite H. reflexivity.
  - intros u' sid' request.
    destruct (nonempty (trim (input u))) eqn:Hin; cbn [negb orb];
      [|discriminate].
    destruct (isLoading u); [discriminate|].
    unfold streamQuery.
    destruct (try_block _ _ _ _) as [st' [|e|]];
      intros H; injection H as _ _ <-; cbn [query requestBody];
      (split; [reflexivity|now apply nonempty_not_nil]).
Qed.

(** C7 as the code has it: every request carries [max_results], and its
    value is null. *)
Theorem requestBody_max_results_null (fuel : nat) (q : jsstring)
    (net : fetch_result) (sid : json) :
  max_results (fst (streamQuery fuel q net sid)) = Some None.
Proof. reflexivity. Qed.

End HandleSubmitClaims.

(** ** Claims on the chat component *)

Lemma without_status_none (prev : list Message) :
  filter has_status (without_status prev) = [].
Proof.
  unfold without_status. induction prev as [|m prev IH]; [reflexivity|].
  simpl. destruct (has_status m) eqn:Hm; simpl; [exact IH|].
  now rewrite Hm.
Qed.

Lemma without_status_spec (prev : list Message) (m : Message) :
  In m (without_status prev) -> has_status m = false.
Proof.
  unfold without_status. intros H. apply filter_In in H.
  destruct H as [_ H]. now apply negb_true_iff.
Qed.

(** What every handler leaves: the entries without a status, then one new
    entry. *)
Lemma appended_after_filter (prev : list Message) (x : Message) :
  let l := without_status prev ++ [x] in
  List.length (filter has_status l) <= 1
  /\ forall i m, nth_error l i = Some m -> has_status m = true ->
                 S i = List.length l.
Proof.
  cbv zeta. split.
  - rewrite filter_app, without_status_none. simpl.
    destruct (has_status x); simpl; lia.
  - intros i m Hnth Hm. rewrite length_app. simpl.
    destruct (Nat.lt_ge_cases i (List.length (without_status prev)))
      as [Hlt|Hge].
    + rewrite nth_error_app1 in Hnth by assumption.
      apply nth_error_In, without_status_spec in Hnth. congruence.
    + assert (Hi : i < List.length (without_status prev ++ [x])).
      { apply nth_error_Some. congruence. }
      rewrite length_app in Hi. simpl in Hi. lia.
Qed.

(** C10 as the code has it: after a status, content or error message is
    handled, and after the catch block, at most one entry of the list has
    a status that holds as a condition (a string that is not empty), and
    it is the last entry.  That condition, [msg.status], is what the
    filter of the handlers and the rendering of an entry test. *)
Theorem on_message_one_status (message : json) (prev : list Message) :
  type_is "status" message || type_is "content" message
  || type_is "error" message = true ->
  (let l := on_message message prev in
   List.length (filter has_status l) <= 1
   /\ forall i m, nth_error l i = Some m -> has_status m = true ->
                  S i = List.length l)
  /\ (let l := on_catch prev in
      List.length (filter has_status l) <= 1
      /\ forall i m, nth_error l i = Some m -> has_status m = true ->
                     S i = List.length l).
Proof.
  intros Htype. split; [|apply appended_after_filter].
  unfold on_message.
  destruct (type_is "status" message); [apply appended_after_filter|].
  destruct (type_is "content" message); [apply appended_after_filter|].
  destruct (type_is "error" message); [apply appended_after_filter|].
  discriminate.
Qed.

(** C10 as it is written fails: the entry of a status message with an
    empty content has a status set, is kept by the filter of every later
    handler, and is followed by the next status entry. *)
Lemma status_set_twice :
  ~ one_status_set_last
      (on_message status_searching (on_message empty_status [])).
Proof.
  intros [H _]. vm_compute in H.
  repeat (apply le_S_n in H). inversion H.
Qed.

Example status_set_not_last :
  map status_set (on_message content_done (on_message empty_status []))
  = [true; false].
Proof. vm_compute. reflexivity. Qed.

(** A handler of a render that has seen the state as it is. *)
Lemma handleSubmit_in_render_current (u : ui_state) :
  handleSubmit_in_render u u = handleSubmit_begin u.
Proof. reflexivity. Qed.

Lemma handleSubmit_begin_loading (u : ui_state) :
  isLoading u = true -> handleSubmit_begin u = (u, None).
Proof.
  intros H. unfold handleSubmit_begin. rewrite H.
  now rewrite orb_true_r.
Qed.

Lemma handleSubmit_begin_started (u u' : ui_state) (q : jsstring) :
  handleSubmit_begin u = (u', Some q) ->
  isLoading u = false /\ isLoading u' = true.
Proof.
  unfold handleSubmit_begin.
  destruct (negb (nonempty (trim (input u)))); [discriminate|].
  destruct (isLoading u); [discriminate|].
  intros H. injection H as <- _. split; reflexivity.
Qed.

Lemma handleSubmit_begin_ignored (u u' : ui_state) :
  handleSubmit_begin u = (u', None) -> u' = u.
Proof.
  unfold handleSubmit_begin.
  destruct (negb (nonempty (trim (input u))) || isLoading u);
    [|discriminate].
  intros H. now injection H as <-.
Qed.


Lemma handleSubmit_in_render_started (seen u u' : ui_state) (q : jsstring) :
  handleSubmit_in_render seen u = (u', Some q) ->
  isLoading seen = false /\ isLoading u' = true
  /\ exists userMessage,
       has_status userMessage = false
       /\ messages u' = messages u ++ [userMessage].
Proof.
  unfold handleSubmit_in_render.
  destruct (negb (nonempty (trim (input seen)))); [discriminate|].
  destruct (isLoading seen); [discriminate|].
  intros H. injection H as <- _. repeat split. now eexists.
Qed.

Lemma handleSubmit_in_render_ignored (seen u u' : ui_state) :
  handleSubmit_in_render seen u = (u', None) -> u' = u.
Proof.
  unfold handleSubmit_in_render.
  destruct (negb (nonempty (trim (input seen))) || isLoading seen);
    [|discriminate].
  intros H. now injection H as <-.
Qed.



(** ** The claims on a concrete response *)

Example sample_text :
  stream_text_utf8 sample_chunks
  = text_of ("{'sessionId':'abc'}" ++ LF ++ "{'type':'status',")%string
    ++ text_of "'content':'Searching caf" ++ [233%N]
    ++ text_of ("'}" ++ LF ++ "not json" ++ LF)%string
    ++ text_of "{'type':'content','content':'done'}".
Proof. vm_compute. reflexivity. Qed.

Example sample_run :
  snd (streamQuery_utf8 4 (text_of " hi ") (streamed 200 sample_chunks Closed)
         JNull)
  = ({| currentSessionId := JStr (text_of "abc");
        yielded := [status_searching; content_done];
        reads := 4 |}, Returned).
Proof. vm_compute. reflexivity. Qed.

Lemma streamQuery_chunking_independent_witness :
  let chunked :=
    snd (streamQuery_utf8 4 (text_of " hi ")
           (streamed 200 sample_chunks Closed) JNull) in
  let whole :=
    snd (streamQuery_utf8 2 (text_of " hi ")
           (streamed 200 [List.concat sample_chunks] Closed) JNull) in
  yielded (fst chunked)
    = messages_in_line_order (env := browser) (stream_text_utf8 sample_chunks)
  /\ yielded (fst chunked) = yielded (fst whole)
  /\ currentSessionId (fst chunked) = currentSessionId (fst whole)
  /\ snd chunked = snd whole.
Proof.
  apply (@streamQuery_chunking_independent browser sample_chunks 4 2 (text_of " hi ")
           JNull 200).
  - reflexivity.
  - simpl. lia.
  - lia.
Defined.

Lemma streamQuery_session_identifier_witness :
  let second := nth 1 sample_session no_run in
  sessionId (fst second)
    = last (flat_map
              (fun c => ids_received (env := browser)
                          (call_net c))
              (firstn 1 sample_calls))
           JNull
  /\ Forall (fun m => js_in k_sessionId m <> Some true)
            (yielded (fst (snd second))).
Proof.
  apply (@streamQuery_session_identifier browser sample_calls 1).
  - repeat constructor.
  - vm_compute. reflexivity.
Defined.

Example second_request_carries_identifier :
  sessionId (fst (nth 1 sample_session no_run)) = JStr (text_of "abc").
Proof. vm_compute. reflexivity. Qed.

Lemma streamQuery_never_throws_witness :
  let r := snd (streamQuery_utf8 2 (text_of "hi") broken_body JNull) in
  (forall e, snd r <> Thrown e)
  /\ snd r = Returned
  /\ exists ys c, yielded (fst r) = ys ++ [error_message c].
Proof.
  destruct (@streamQuery_never_throws browser 2 (text_of "hi") broken_body JNull) as [H1 H2].
  split; [exact H1|].
  apply H2.
  - reflexivity.
  - simpl. lia.
Defined.

Example broken_body_run :
  yielded (fst (snd (streamQuery_utf8 2 (text_of "hi") broken_body JNull)))
  = [JObj [(k_type, JStr (text_of "status"));
           (k_content, JStr (text_of "Searching"))];
     error_message (text_of "network error")].
Proof. vm_compute. reflexivity. Qed.

Lemma streamQuery_never_returns_on_final_sessionId_witness :
  snd (snd (streamQuery_utf8 1000 (text_of "hi")
              (streamed 200 final_sessionId_chunks Closed) JNull))
  = OutOfFuel.
Proof.
  apply (@streamQuery_never_returns_on_final_sessionId browser 1000 (text_of "hi") 200
           final_sessionId_chunks JNull
           (JObj [(k_sessionId, JStr (text_of "abc"))])).
  - reflexivity.
  - vm_compute. reflexivity.
  - vm_compute. reflexivity.
  - vm_compute. reflexivity.
Defined.

Example final_sessionId_run :
  snd (streamQuery_utf8 5 (text_of "hi")
         (streamed 200 final_sessionId_chunks Closed) JNull)
  = ({| currentSessionId := JStr (text_of "abc"); yielded := [];
        reads := 5 |}, OutOfFuel).
Proof. vm_compute. reflexivity. Qed.

(** The same identifier followed by a newline is handled by the loop over
    the lines, and the generator returns. *)
Example terminated_sessionId_run :
  snd (streamQuery_utf8 5 (text_of "hi")
         (streamed 200 [bytes ("{'sessionId':'abc'}" ++ LF)%string] Closed)
         JNull)
  = ({| currentSessionId := JStr (text_of "abc"); yielded := [];
        reads := 2 |}, Returned).
Proof. vm_compute. reflexivity. Qed.

Lemma streamQuery_skips_invalid_line_witness :
  let run cs :=
    observe (snd (streamQuery_utf8 3 (text_of "hi") (streamed 200 cs Closed)
                    JNull)) in
  run [bytes (line_a ++ "not json" ++ LF ++ line_b)%string]
    = run [bytes (line_a ++ line_b)%string]
  /\ run [bytes (line_a ++ "not json")%string] = run [bytes line_a].
Proof.
  cbv zeta.
  destruct (@streamQuery_skips_invalid_line browser
              (text_of line_a) (text_of "not json") Closed 200
              (text_of "hi") JNull)
    as [H1 H2].
  - reflexivity.
  - vm_compute. reflexivity.
  - vm_compute. intros H. repeat (destruct H as [H|H]; [discriminate H|]).
    exact H.
  - vm_compute. reflexivity.
  - split.
    + apply (H1 (text_of line_b)).
      * vm_compute. reflexivity.
      * vm_compute. reflexivity.
      * simpl. lia.
      * simpl. lia.
    + apply H2.
      * vm_compute. reflexivity.
      * vm_compute. reflexivity.
      * simpl. lia.
      * simpl. lia.
Defined.

Example invalid_line_run :
  yielded (fst (snd (streamQuery_utf8 3 (text_of "hi")
                       (streamed 200
                          [bytes (line_a ++ "not json" ++ LF ++ line_b)%string]
                          Closed) JNull)))
  = [JObj [(k_type, JStr (text_of "status")); (k_content, JStr (text_of "a"))];
     JObj [(k_type, JStr (text_of "content")); (k_content, JStr (text_of "b"))]].
Proof. vm_compute. reflexivity. Qed.

Lemma handleSubmit_query_nonempty_witness :
  handleSubmit_utf8 4 (streamed 200 sample_chunks Closed) blank_ui JNull
    = (blank_ui, JNull, None)
  /\ (let request :=
        fst (streamQuery_utf8 4 (input typed_ui)
               (streamed 200 sample_chunks Closed) JNull) in
      query request = trim (input typed_ui) /\ query request <> []).
Proof.
  split.
  - apply (@handleSubmit_query_nonempty browser 4 (streamed 200 sample_chunks Closed) blank_ui JNull).
    reflexivity.
  - cbv zeta.
    apply (proj2 (@handleSubmit_query_nonempty browser 4
                    (streamed 200 sample_chunks Closed) typed_ui JNull)
             (fst (fst (handleSubmit_utf8 4 (streamed 200 sample_chunks Closed)
                          typed_ui JNull)))
             (snd (fst (handleSubmit_utf8 4 (streamed 200 sample_chunks Closed)
                          typed_ui JNull)))).
    vm_compute. reflexivity.
Defined.

Example typed_query_sent :
  query (fst (streamQuery_utf8 4 (input typed_ui)
                (streamed 200 sample_chunks Closed) JNull))
  = text_of "what is new?".
Proof. vm_compute. reflexivity. Qed.

(** C7 as the data model states it fails on the request of any call: the
    field is there, and it is null. *)
Lemma max_results_neither_absent_nor_positive :
  ~ max_results_absent_or_positive
      (fst (streamQuery_utf8 4 (text_of "what is new?")
              (streamed 200 sample_chunks Closed) JNull)).
Proof. vm_compute. intros H. exact H. Qed.

Lemma on_message_one_status_witness :
  let prev :=
    [{| text := Value (Some (JStr (text_of "what is new?"))); isAI := false;
        status := None |};
     {| text := Value (Some (JStr [])); isAI := true;
        status := Some (JStr (text_of "Checking")) |}] in
  (let l := on_message status_searching prev in
   List.length (filter has_status l) <= 1
   /\ forall i m, nth_error l i = Some m -> has_status m = true ->
                  S i = List.length l)
  /\ (let l := on_catch prev in
      List.length (filter has_status l) <= 1
      /\ forall i m, nth_error l i = Some m -> has_status m = true ->
                     S i = List.length l).
Proof.
  apply (@on_message_one_status status_searching).
  reflexivity.
Defined.

Example status_replaces_status :
  map status
      (on_message status_searching
         [{| text := Value (Some (JStr (text_of "what is new?")));
             isAI := false; status := None |};
          {| text := Value (Some (JStr [])); isAI := true;
             status := Some (JStr (text_of "Checking")) |}])
  = [None; Some (JStr (text_of "Searching caf" ++ [233%N]))].
Proof. vm_compute. reflexivity. Qed.

Lemma next_step (a : chat) (e : event) :
  (forall m, e = StreamYield m -> in_flight a <> 0) ->
  (forall c, e = StreamEnd c -> in_flight a <> 0 /\ c <> OutOfFuel) ->
  step a e (next a e).
Proof.
  intros Hy He. destruct e as [|s| |m|c]; cbn [next].
  - constructor.
  - constructor.
  - destruct (handleSubmit_in_render (rendered a) (ui a)) as [u' [q|]] eqn:E.
    + now apply step_submit_started with (q := q).
    + now apply step_submit_ignored.
  - specialize (Hy m eq_refl).
    destruct (in_flight a) as [|n] eqn:En; [congruence|].
    rewrite <- En. now apply step_yield with (n := n).
  - destruct (He c eq_refl) as [Hn Hc].
    destruct (in_flight a) as [|n] eqn:En; [congruence|].
    now apply step_end.
Qed.



Example submitted_once_state :
  in_flight submitted_once = 1
  /\ isLoading (ui submitted_once) = true
  /\ snd (handleSubmit_in_render (rendered submitted_once)
                                 (ui submitted_once)) = None.
Proof. vm_compute. repeat split. Qed.


Example submitted_twice_state :
  in_flight submitted_twice = 2
  /\ map isAI (messages (ui submitted_twice)) = [false; false].
Proof. vm_compute. repeat split. Qed.

(** * Further properties of the code *)

(** ** [split] and [pop] lose nothing *)

Lemma split_no_newline_inside (s : jsstring) :
  Forall (fun l => ~ In newline l) (split newline s).
Proof.
  induction s as [|c s IH]; simpl.
  - constructor; [intros []|constructor].
  - destruct (N.eqb_spec c newline) as [->|Hc].
    + constructor; [intros []|exact IH].
    + destruct (split newline s) as [|l ls]; simpl.
      * constructor; [|constructor]. intros [H|[]]. congruence.
      * inversion IH as [|l' ls' Hl Hls]; subst.
        constructor; [|exact Hls]. intros [H|H]; [congruence|tauto].
Qed.

Lemma split_join (s : jsstring) :
  join_lines (removelast (split newline s)) ++ last (split newline s) [] = s.
Proof.
  induction s as [|c s IH]; [reflexivity|].
  pose proof (split_not_nil newline s) as Hne.
  simpl split. destruct (N.eqb_spec c newline) as [->|Hc].
  - destruct (split newline s) as [|l ls] eqn:E; [congruence|].
    set (R := removelast (l :: ls)) in *.
    set (L := last (l :: ls) []) in *.
    change (join_lines ([] :: R) ++ L = newline :: s).
    rewrite <- IH. reflexivity.
  - destruct (split newline s) as [|l ls] eqn:E; [congruence|].
    destruct ls as [|l' ls].
    + simpl in *. now rewrite IH.
    + set (R := removelast (l' :: ls)) in *.
      set (L := last (l' :: ls) []) in *.
      change (join_lines (l :: R) ++ L = s) in IH.
      change (join_lines ((c :: l) :: R) ++ L = c :: s).
      rewrite <- IH. reflexivity.
Qed.

Lemma Forall_removelast (A : Type) (P : A -> Prop) (l : list A) :
  Forall P l -> Forall P (removelast l).
Proof.
  induction 1 as [|x l Hx Hl IH]; [constructor|].
  simpl. destruct l; [constructor|]. constructor; assumption.
Qed.

Lemma Forall_last (A : Type) (P : A -> Prop) (l : list A) (d : A) :
  P d -> Forall P l -> P (last l d).
Proof.
  intros Hd. induction 1 as [|x l Hx Hl IH]; [assumption|].
  simpl. destruct l; assumption.
Qed.

Lemma last_line_no_newline (t : jsstring) : ~ In newline (last_line t).
Proof.
  unfold last_line.
  apply (@Forall_last _ (fun l => ~ In newline l)); [intros []|].
  apply split_no_newline_inside.
Qed.

(** X1: lines 75-76 lose nothing.  The lines taken from the buffer, each
    followed by a newline, and the new buffer make up the old buffer
    again; no line and no new buffer holds a newline. *)
Theorem split_pop_lossless (buffer : jsstring) :
  let (last_line, lines) := pop (split newline buffer) in
  join_lines lines ++ or_empty last_line = buffer
  /\ Forall (fun l => ~ In newline l) lines
  /\ ~ In newline (or_empty last_line).
Proof.
  rewrite (pop_last_removelast (@nil code_unit)) by apply split_not_nil.
  rewrite or_empty_some. split; [apply split_join|]. split.
  - apply Forall_removelast, split_no_newline_inside.
  - apply last_line_no_newline.
Qed.

(** ** More on [streamQuery] *)

Section StreamQueryMore.

Context {env : Platform}.

Lemma for_lines_reads lines : forall st,
  reads (fold_left handle_line lines st) = reads st.
Proof.
  induction lines as [|l ls IH]; intros st; [reflexivity|].
  simpl. rewrite IH. line_cases l; reflexivity.
Qed.

Lemma read_loop_end_reads fuel e d buffer st :
  (e = Closed -> of_last_line id_of buffer = []) ->
  reads (fst (read_loop (S fuel) {| chunks := []; ending := e |} d buffer st))
  = S (reads st).
Proof.
  intros Hlast. destruct e as [|err]; [|reflexivity].
  specialize (Hlast eq_refl). unfold of_last_line, id_of in Hlast.
  cbn [read_loop Fetch.reader_read chunks ending].
  destruct (nonempty buffer); [|reflexivity].
  destruct (JSON_parse buffer) as [m|]; [|reflexivity].
  destruct (js_in k_sessionId m) as [[|]|]; [discriminate| |]; reflexivity.
Qed.

Lemma read_loop_reads fuel cs e st :
  List.length cs < fuel ->
  (e = Closed -> of_last_line id_of (last_line (stream_text cs)) = []) ->
  reads (fst (read_loop fuel {| chunks := cs; ending := e |} decoder_new []
                st))
  = S (List.length cs) + reads st.
Proof.
  intros Hfuel Hlast.
  replace fuel with (List.length cs + S (fuel - S (List.length cs))) by lia.
  pose proof (read_loop_chunks cs (S (fuel - S (List.length cs))) e
                decoder_new [] st) as H.
  change (last_line []) with (@nil code_unit) in H.
  change (fold_left handle_line (complete_lines []) st) with st in H.
  rewrite H. clear H. cbn [List.app].
  rewrite read_loop_end_reads by exact Hlast.
  unfold add_reads; simpl. now rewrite for_lines_reads.
Qed.

Lemma streamQuery_reads fuel q st cs e sid :
  (200 <=? st)%Z && (st <=? 299)%Z = true ->
  List.length cs < fuel ->
  (e = Closed -> of_last_line id_of (last_line (stream_text cs)) = []) ->
  reads (fst (snd (streamQuery fuel q (streamed st cs e) sid)))
  = S (List.length cs).
Proof.
  intros Hok Hfuel Hlast.
  unfold streamQuery, try_block, streamed, Fetch.ok.
  cbn [snd Fetch.status Fetch.body]. rewrite Hok. cbn [negb].
  pose proof (@read_loop_reads fuel cs e
                {| currentSessionId := sid; yielded := []; reads := 0 |}
                Hfuel Hlast) as H.
  destruct (read_loop fuel _ decoder_new [] _) as [st' [|err|]];
    cbn [fst catch_block yield reads] in *; lia.
Qed.

(** X2: a closed body whose text after the last newline is empty, is not
    JSON, or is not an object with a [sessionId] makes the generator
    return, after exactly one read per chunk and one that finds the end. *)
Theorem streamQuery_terminates (fuel : nat) (q : jsstring) (st : Z)
    (cs : list (list byte)) (sid : json) :
  (200 <=? st)%Z && (st <=? 299)%Z = true ->
  List.length cs < fuel ->
  of_last_line id_of (last_line (stream_text cs)) = [] ->
  let r := snd (streamQuery fuel q (streamed st cs Closed) sid) in
  snd r = Returned /\ reads (fst r) = S (List.length cs).
Proof.
  intros Hok Hfuel Hlast. cbv zeta. split.
  - now apply streamQuery_returns.
  - apply streamQuery_reads; auto.
Qed.

(** X3: when a read throws, the messages of the complete lines read so
    far have been yielded, the unfinished line in the buffer is dropped
    without being parsed, the error message is yielded last, and the
    identifiers of the complete lines stay stored. *)
Theorem streamQuery_read_error (fuel : nat) (q : jsstring) (st : Z)
    (cs : list (list byte)) (err : thrown) (sid : json) :
  (200 <=? st)%Z && (st <=? 299)%Z = true ->
  List.length cs < fuel ->
  let r := snd (streamQuery fuel q (streamed st cs (Errored err)) sid) in
  yielded (fst r)
    = flat_map (of_line message_of) (complete_lines (stream_text cs))
      ++ [error_message (error_content err)]
  /\ currentSessionId (fst r)
     = last (flat_map (of_line id_of) (complete_lines (stream_text cs))) sid
  /\ snd r = Returned
  /\ reads (fst r) = S (List.length cs).
Proof.
  intros Hok Hfuel. cbv zeta.
  pose proof (@streamQuery_observe _ fuel q st cs (Errored err) sid Hok Hfuel)
    as H.
  unfold observe, outcome_of_text in H. injection H as H1 H2 H3.
  repeat split; try assumption.
  apply streamQuery_reads; [assumption|assumption|discriminate].
Qed.

(** X4: a call that fails before the body is read (fetch rejects, the
    status is not ok, the body is null) yields exactly one error message
    with the content of that failure, reads nothing, returns, and leaves
    the session identifier as it was. *)
Theorem streamQuery_fails_before_body (fuel : nat) (q : jsstring)
    (net : fetch_result) (sid : json) (c : jsstring) :
  fails_before_body net = Some c ->
  snd (streamQuery fuel q net sid)
  = ({| currentSessionId := sid; yielded := [error_message c]; reads := 0 |},
     Returned).
Proof.
  unfold fails_before_body, streamQuery, try_block. cbn [snd].
  destruct net as [e|r].
  - intros H. injection H as <-. reflexivity.
  - destruct (Fetch.ok r); cbn [negb].
    + destruct (Fetch.body r); [discriminate|].
      intros H. injection H as <-. reflexivity.
    + destruct (Fetch.status r =? 429)%Z; intros H; injection H as <-;
        reflexivity.
Qed.

Section Yielded.

Variable P : json -> Prop.
Hypothesis P_message : forall m, js_in k_sessionId m = Some false -> P m.
Hypothesis P_error : forall c, P (error_message c).

Lemma yield_keeps m st :
  P m -> Forall P (yielded st) -> Forall P (yielded (yield m st)).
Proof.
  intros Hm Hst. unfold yield; simpl.
  apply Forall_app. split; [assumption|]. now constructor.
Qed.

Lemma for_lines_keep lines : forall st,
  Forall P (yielded st) ->
  Forall P (yielded (fold_left handle_line lines st)).
Proof.
  induction lines as [|l ls IH]; intros st Hst; [assumption|].
  simpl. apply IH. line_cases l; try assumption.
  apply yield_keeps; auto.
Qed.

Lemma read_loop_keeps fuel : forall reader d buffer st,
  Forall P (yielded st) ->
  Forall P (yielded (fst (read_loop fuel reader d buffer st))).
Proof.
  induction fuel as [|fuel IH]; intros reader d buffer st Hst; [assumption|].
  cbn [read_loop].
  destruct (Fetch.reader_read reader) as [value reader'| |e].
  - destruct (decode d value) as [d' t].
    destruct (pop (split newline (buffer ++ t))) as [o lines].
    apply IH, for_lines_keep. assumption.
  - destruct (nonempty buffer); [|assumption].
    destruct (JSON_parse buffer) as [m|]; [|assumption].
    destruct (js_in k_sessionId m) as [[|]|] eqn:Hin; try assumption.
    + apply IH. assumption.
    + apply yield_keeps; auto.
  - assumption.
Qed.

Lemma streamQuery_keeps fuel q net sid :
  Forall P (yielded (fst (snd (streamQuery fuel q net sid)))).
Proof.
  unfold streamQuery. cbn [snd].
  assert (H : Forall P
                (yielded (fst (try_block fuel q net
                                 {| currentSessionId := sid; yielded := [];
                                    reads := 0 |})))).
  { unfold try_block. destruct net as [e|r]; [constructor|].
    destruct (negb (Fetch.ok r)).
    - destruct (Fetch.status r =? 429)%Z; [|constructor].
      apply yield_keeps; [apply P_error|constructor].
    - destruct (Fetch.body r) as [b|]; [|constructor].
      apply read_loop_keeps. constructor. }
  destruct (try_block _ _ _ _) as [st' [|e|]]; cbn [fst] in *;
    try assumption.
  apply yield_keeps; [apply P_error|assumption].
Qed.

End Yielded.

Lemma js_in_object k m : js_in k m = Some false -> is_object m = true.
Proof. destruct m; simpl; congruence. Qed.

(** X5: whatever the response and however long the run, every value the
    generator yields is an object or an array: a line that parses to
    null, a number, a string or a boolean is never handed to the
    consumer, so reading [message.type] there cannot throw. *)
Theorem streamQuery_yields_objects (fuel : nat) (q : jsstring)
    (net : fetch_result) (sid : json) :
  Forall (fun m => is_object m = true)
         (yielded (fst (snd (streamQuery fuel q net sid)))).
Proof.
  apply streamQuery_keeps.
  - intros m. apply js_in_object.
  - reflexivity.
Qed.

End StreamQueryMore.

Section Lines.

Context {env : Platform}.

Lemma outcome_skips_silent_line e t1 l t2 sid :
  last_line t1 = [] ->
  ~ In newline l ->
  of_line message_of l = [] ->
  of_line id_of l = [] ->
  outcome_of_text e (t1 ++ l ++ newline :: t2) sid
  = outcome_of_text e (t1 ++ t2) sid.
Proof.
  intros Ht1 Hnl Hm Hi.
  assert (Hc : complete_lines (t1 ++ l ++ newline :: t2)
               = complete_lines t1 ++ l :: complete_lines t2).
  { rewrite complete_lines_app, Ht1. cbn [List.app].
    unfold complete_lines at 2. rewrite split_line by assumption.
    pose proof (split_not_nil newline t2).
    f_equal. unfold complete_lines.
    destruct (split newline t2); [congruence|reflexivity]. }
  assert (Hl : last_line (t1 ++ l ++ newline :: t2) = last_line t2).
  { rewrite last_line_app, Ht1. cbn [List.app].
    unfold last_line. rewrite split_line by assumption.
    pose proof (split_not_nil newline t2).
    cbn [last]. destruct (split newline t2); [congruence|reflexivity]. }
  unfold outcome_of_text, ids_in_line_order, messages_in_line_order.
  rewrite Hc, Hl, (complete_lines_app t1 t2), (last_line_app t1 t2), Ht1.
  cbn [List.app]. rewrite !flat_map_app. cbn [flat_map].
  rewrite Hm, Hi. reflexivity.
Qed.

(** X6: a line of white space only, between two lines, is skipped before
    [JSON.parse] sees it: a run over a body with such a line yields the
    same values, leaves the same session identifier and ends the same way
    as a run over the body without it. *)
Theorem streamQuery_skips_blank_line
    (t1 blank t2 : jsstring) (e : stream_end) (st : Z) (q : jsstring)
    (sid : json) (cs cs' : list (list byte)) (fuel fuel' : nat) :
  (200 <=? st)%Z && (st <=? 299)%Z = true ->
  last_line t1 = [] ->
  ~ In newline blank ->
  nonempty (trim blank) = false ->
  stream_text cs = t1 ++ blank ++ newline :: t2 ->
  stream_text cs' = t1 ++ t2 ->
  List.length cs < fuel ->
  List.length cs' < fuel' ->
  observe (snd (streamQuery fuel q (streamed st cs e) sid))
  = observe (snd (streamQuery fuel' q (streamed st cs' e) sid)).
Proof.
  intros Hok Ht1 Hnl Hblank Hcs Hcs' Hf Hf'.
  unfold streamed. rewrite !streamQuery_observe by assumption.
  rewrite Hcs, Hcs'.
  apply outcome_skips_silent_line; try assumption;
    unfold of_line; now rewrite Hblank.
Qed.

Lemma nonempty_trim (l : jsstring) :
  nonempty (trim l) = true -> nonempty l = true.
Proof. destruct l; [discriminate|reflexivity]. Qed.

Lemma lines_of_terminated (t : jsstring) :
  complete_lines (t ++ [newline]) = complete_lines t ++ [last_line t]
  /\ last_line (t ++ [newline]) = [].
Proof.
  assert (H : split newline (last_line t ++ [newline]) = [last_line t; []])
    by apply split_line, last_line_no_newline.
  rewrite complete_lines_app, last_line_app. split.
  - f_equal. unfold complete_lines at 1. now rewrite H.
  - unfold last_line at 1. now rewrite H.
Qed.

(** X7: ending the last line with a newline changes neither what is
    yielded nor what is stored, as long as that line is not blank; and
    with the newline the generator always returns. *)
Theorem streamQuery_final_newline
    (st : Z) (q : jsstring) (sid : json) (cs cs' : list (list byte))
    (fuel fuel' : nat) :
  (200 <=? st)%Z && (st <=? 299)%Z = true ->
  nonempty (trim (last_line (stream_text cs))) = true ->
  stream_text cs' = stream_text cs ++ [newline] ->
  List.length cs < fuel ->
  List.length cs' < fuel' ->
  let open := snd (streamQuery fuel q (streamed st cs Closed) sid) in
  let ended := snd (streamQuery fuel' q (streamed st cs' Closed) sid) in
  yielded (fst ended) = yielded (fst open)
  /\ currentSessionId (fst ended) = currentSessionId (fst open)
  /\ snd ended = Returned.
Proof.
  intros Hok Hline Hcs' Hf Hf' open ended.
  assert (Ho : observe open = outcome_of_text Closed (stream_text cs) sid)
    by (apply streamQuery_observe; assumption).
  assert (He : observe ended = outcome_of_text Closed (stream_text cs') sid)
    by (apply streamQuery_observe; assumption).
  rewrite Hcs' in He.
  unfold observe, outcome_of_text, ids_in_line_order, messages_in_line_order
    in Ho, He.
  destruct (lines_of_terminated (stream_text cs)) as [Hc Hl].
  rewrite Hc, Hl in He. rewrite !flat_map_app in He.
  cbn [flat_map of_last_line nonempty] in He. rewrite !app_nil_r in He.
  unfold of_line in He at 2 4. rewrite Hline in He.
  unfold of_last_line in Ho. rewrite (nonempty_trim _ Hline) in Ho.
  injection Ho as Ho1 Ho2 _. injection He as He1 He2 He3.
  repeat split; congruence.
Qed.

End Lines.

(** ** The query of a request *)

Lemma trim_start_head (s : jsstring) (c : code_unit) (r : jsstring) :
  trim_start s = c :: r -> is_white_space c = false.
Proof.
  induction s as [|x s IH]; [discriminate|].
  simpl. destruct (is_white_space x) eqn:E; [exact IH|].
  intros H. injection H as <- _. exact E.
Qed.

Lemma trim_start_fixed (s : jsstring) :
  (forall c r, s = c :: r -> is_white_space c = false) -> trim_start s = s.
Proof.
  destruct s as [|c r]; [reflexivity|].
  intros H. simpl. now rewrite (H c r eq_refl).
Qed.

Lemma trim_start_suffix (s : jsstring) :
  exists ws, s = ws ++ trim_start s.
Proof.
  induction s as [|x s [ws IH]]; [now exists []|].
  simpl. destruct (is_white_space x).
  - exists (x :: ws). simpl. now f_equal.
  - now exists [].
Qed.

Lemma trim_first (s : jsstring) (c : code_unit) (r : jsstring) :
  trim s = c :: r -> is_white_space c = false.
Proof.
  unfold trim. intros H.
  destruct (trim_start_suffix (rev (trim_start s))) as [ws Hws].
  apply (f_equal (@rev code_unit)) in Hws.
  rewrite rev_involutive, rev_app_distr, H in Hws.
  simpl in Hws. now apply trim_start_head in Hws.
Qed.

Lemma trim_last (s : jsstring) (init : jsstring) (c : code_unit) :
  trim s = init ++ [c] -> is_white_space c = false.
Proof.
  unfold trim. intros H.
  apply (f_equal (@rev code_unit)) in H.
  rewrite rev_involutive, rev_app_distr in H. simpl in H.
  now apply trim_start_head in H.
Qed.

Lemma trim_trim (s : jsstring) : trim (trim s) = trim s.
Proof.
  assert (H1 : trim_start (trim s) = trim s)
    by (apply trim_start_fixed; intros c r; apply trim_first).
  unfold trim at 1. rewrite H1.
  unfold trim. rewrite rev_involutive.
  f_equal. apply trim_start_fixed. intros c r. apply trim_start_head.
Qed.

(** X8: the query of every request is trimmed for good: trimming it
    again changes nothing, and neither its first nor its last character
    is white space. *)
Theorem request_query_trimmed {env : Platform} (fuel : nat) (q : jsstring)
    (net : fetch_result) (sid : json) :
  let sent := query (fst (streamQuery fuel q net sid)) in
  trim sent = sent
  /\ (forall c r, sent = c :: r -> is_white_space c = false)
  /\ (forall init c, sent = init ++ [c] -> is_white_space c = false).
Proof.
  cbv zeta. change (query (fst (streamQuery fuel q net sid))) with (trim q).
  split; [apply trim_trim|]. split.
  - intros c r. apply trim_first.
  - intros init c. apply trim_last.
Qed.

(** ** Starting a request from the page *)

(** X9: the Send button is disabled exactly when a submit would be
    ignored, and a key press starts a request exactly when the key is
    Enter, Shift is up and the button is enabled; any other key press
    leaves the state as it is. *)
Theorem keydown_and_button (e : KeyboardEvent) (u : ui_state) :
  (snd (handleSubmit_begin u) = None <-> send_disabled u = true)
  /\ (snd (handleKeyDown e u) <> None
      <-> key e = lit "Enter" /\ shiftKey e = false
          /\ send_disabled u = false)
  /\ (snd (handleKeyDown e u) = None -> handleKeyDown e u = (u, None)).
Proof.
  assert (Hb : snd (handleSubmit_begin u) = None <-> send_disabled u = true).
  { unfold handleSubmit_begin, send_disabled.
    destruct (nonempty (trim (input u))), (isLoading u); simpl;
      split; congruence. }
  split; [exact Hb|].
  unfold handleKeyDown.
  destruct (str_eqb (key e) (lit "Enter")) eqn:Hk.
  - apply str_eqb_eq in Hk. destruct (shiftKey e); cbn [negb andb snd].
    + split; [split; [intros H; now elim H|intros (_ & H & _); discriminate]|].
      reflexivity.
    + split.
      * split.
        -- intros H. repeat split; [assumption|].
           destruct (send_disabled u); [|reflexivity].
           elim H. now apply Hb.
        -- intros (_ & _ & H) Hn. apply Hb in Hn. congruence.
      * intros H. unfold handleSubmit_begin in *.
        destruct (negb (nonempty (trim (input u))) || isLoading u);
          [reflexivity|discriminate].
  - cbn [andb snd]. split; [|reflexivity].
    split; [intros H; now elim H|].
    intros (H & _). apply str_eqb_eq in H. congruence.
Qed.

(** ** The stored conversation *)

Lemma format_stored_status (msg : json) (m : Message) :
  format_stored msg = Some m -> status m = None.
Proof.
  destruct msg; simpl; try discriminate;
    intros H; injection H as <-; reflexivity.
Qed.

Lemma map_stored_status (l : list json) : forall ms,
  map_stored l = Some ms -> Forall (fun m => status m = None) ms.
Proof.
  induction l as [|msg l IH]; intros ms; simpl.
  - intros H. injection H as <-. constructor.
  - destruct (format_stored msg) as [m|] eqn:Em; [|discriminate].
    destruct (map_stored l) as [ms'|]; [|discriminate].
    intros H. injection H as <-.
    constructor; [now apply (format_stored_status msg)|now apply IH].
Qed.

Lemma map_stored_null (l : list json) :
  In JNull l -> map_stored l = None.
Proof.
  induction l as [|msg l IH]; [intros []|].
  intros [->|H]; [reflexivity|].
  simpl. destruct (format_stored msg); [|reflexivity].
  now rewrite IH.
Qed.

Lemma map_stored_all (l : list json) :
  ~ In JNull l ->
  exists ms, map_stored l = Some ms
             /\ List.length ms = List.length l
             /\ forall i msg, nth_error l i = Some msg ->
                              nth_error ms i = format_stored msg.
Proof.
  induction l as [|msg l IH]; intros Hn.
  - exists []. repeat split. intros [|i] msg; discriminate.
  - destruct IH as (ms & Hms & Hlen & Hnth).
    { intros H. apply Hn. now right. }
    destruct (format_stored msg) as [m|] eqn:Em.
    + exists (m :: ms). simpl. rewrite Em, Hms. repeat split.
      * now rewrite Hlen.
      * intros [|i] msg' H; simpl in *.
        -- injection H as <-. now rewrite Em.
        -- now apply Hnth.
    + destruct msg; try discriminate. elim Hn. now left.
Qed.

Section Stored.

Context {env : Platform}.

Lemma load_stored_status (s : option jsstring) :
  Forall (fun m => status m = None) (load_stored s []).
Proof.
  unfold load_stored. destruct s as [t|]; [|constructor].
  destruct (nonempty t); [|constructor].
  destruct (JSON_parse t) as [[| | | |l|]|]; try constructor.
  destruct (map_stored l) as [ms|] eqn:E; [|constructor].
  now apply (map_stored_status l).
Qed.

(** X10: a stored conversation is taken whole or not at all.  When the
    stored text parses to an array, one null element keeps the messages as
    they were; without one, the list has one entry per element, in order,
    each made by the callback and none with a status.  *)
Theorem load_stored_all_or_nothing (t : jsstring)
    (parsedMessages : list json) (prev : list Message) :
  nonempty t = true ->
  JSON_parse t = Some (JArr parsedMessages) ->
  (In JNull parsedMessages -> load_stored (Some t) prev = prev)
  /\ (~ In JNull parsedMessages ->
      let l := load_stored (Some t) prev in
      List.length l = List.length parsedMessages
      /\ Forall (fun m => status m = None) l
      /\ forall i msg, nth_error parsedMessages i = Some msg ->
                       nth_error l i = format_stored msg).
Proof.
  intros Ht Hp. unfold load_stored. rewrite Ht, Hp. split.
  - intros Hn. now rewrite map_stored_null.
  - intros Hn. destruct (map_stored_all parsedMessages Hn)
      as (ms & Hms & Hlen & Hnth).
    rewrite Hms. cbv zeta. repeat split; try assumption.
    now apply (map_stored_status parsedMessages).
Qed.

(** X11: storage that is missing, empty, not JSON or not an array leaves
    the messages as they were. *)
Theorem load_stored_unusable (s : option jsstring) (prev : list Message) :
  (forall t l, s = Some t -> nonempty t = true ->
               JSON_parse t <> Some (JArr l)) ->
  load_stored s prev = prev.
Proof.
  intros H. unfold load_stored. destruct s as [t|]; [|reflexivity].
  destruct (nonempty t) eqn:Ht; [|reflexivity].
  destruct (JSON_parse t) as [[| | | |l|]|] eqn:Hp; try reflexivity.
  elim (H t l eq_refl Ht). exact Hp.
Qed.

End Stored.

(** ** The list of messages over time *)

Lemma without_status_app (l l' : list Message) :
  without_status (l ++ l') = without_status l ++ without_status l'.
Proof. apply filter_app. Qed.

Lemma without_status_idem (l : list Message) :
  without_status (without_status l) = without_status l.
Proof.
  unfold without_status. induction l as [|m l IH]; [reflexivity|].
  simpl. destruct (has_status m) eqn:E; simpl; [exact IH|].
  now rewrite E, IH.
Qed.

(** What a handler keeps: the entries without a status stay, in order,
    and the lasting entries of the message come after them. *)
Lemma on_message_lasting (message : json) (prev : list Message) :
  without_status (on_message message prev)
  = without_status prev ++ lasting_entries message.
Proof.
  unfold lasting_entries, on_message.
  destruct (type_is "status" message);
    [now rewrite without_status_app, without_status_idem|].
  destruct (type_is "content" message);
    [now rewrite without_status_app, without_status_idem|].
  destruct (type_is "error" message);
    [now rewrite without_status_app, without_status_idem|].
  simpl. now rewrite app_nil_r.
Qed.

Lemma on_catch_lasting (prev : list Message) :
  exists ext, without_status (on_catch prev) = without_status prev ++ ext.
Proof.
  unfold on_catch. rewrite without_status_app, without_status_idem.
  now eexists.
Qed.

Lemma step_keeps_history (a a' : chat) (e : event) :
  step a e a' ->
  exists ext,
    without_status (messages (ui a'))
    = without_status (messages (ui a)) ++ ext.
Proof.
  intros Hstep.
  destruct Hstep
    as [a|a s|a u' Hb|a u' q Hb|a n message Hn|a n c Hn Hc];
    cbn [ui messages setInput setMessages].
  - exists []. now rewrite app_nil_r.
  - exists []. now rewrite app_nil_r.
  - apply handleSubmit_in_render_ignored in Hb. subst u'.
    exists []. now rewrite app_nil_r.
  - apply handleSubmit_in_render_started in Hb.
    destruct Hb as (_ & _ & userMessage & _ & ->).
    rewrite without_status_app. now eexists.
  - rewrite on_message_lasting. now eexists.
  - destruct c; cbn [handleSubmit_end messages setIsLoading setMessages].
    + exists []. now rewrite app_nil_r.
    + apply on_catch_lasting.
    + congruence.
Qed.

(** X12: nothing is ever taken out of the conversation but status
    entries.  In every state the component reaches, the entries without a
    status are those it was mounted with, in their order, followed by the
    ones added since. *)
Theorem history_is_append_only (stored : list Message) (a : chat) :
  reachable stored a ->
  exists added,
    without_status (messages (ui a)) = without_status stored ++ added.
Proof.
  induction 1 as [|a e a' _ [added IH] Hstep].
  - exists []. now rewrite app_nil_r.
  - destruct (step_keeps_history Hstep) as [ext Hext].
    exists (added ++ ext). now rewrite Hext, IH, app_assoc.
Qed.

Lemma count_after_append (l : list Message) (x : Message) :
  has_status x = false ->
  filter has_status (l ++ [x]) = filter has_status l.
Proof.
  intros Hx. rewrite filter_app. simpl. rewrite Hx. apply app_nil_r.
Qed.

Lemma step_keeps_one_status (a a' : chat) (e : event) :
  List.length (filter has_status (messages (ui a))) <= 1 ->
  step a e a' ->
  List.length (filter has_status (messages (ui a'))) <= 1.
Proof.
  intros Hinv Hstep.
  destruct Hstep
    as [a|a s|a u' Hb|a u' q Hb|a n message Hn|a n c Hn Hc];
    cbn [ui messages setInput setMessages].
  - exact Hinv.
  - exact Hinv.
  - apply handleSubmit_in_render_ignored in Hb. now subst u'.
  - apply handleSubmit_in_render_started in Hb.
    destruct Hb as (_ & _ & userMessage & Hu & ->).
    now rewrite count_after_append.
  - unfold on_message.
    destruct (type_is "status" message); [apply appended_after_filter|].
    destruct (type_is "content" message); [apply appended_after_filter|].
    destruct (type_is "error" message); [apply appended_after_filter|].
    exact Hinv.
  - destruct c; cbn [handleSubmit_end messages setIsLoading setMessages].
    + exact Hinv.
    + apply appended_after_filter.
    + exact Hinv.
Qed.

(** X13: from the moment the component is mounted, whatever the storage
    held and whatever events follow, the list never has more than one
    entry with a status: at most one progress line is on the page. *)
Theorem at_most_one_status_entry {env : Platform}
    (storedMessages : option jsstring) (a : chat) :
  reachable (load_stored storedMessages []) a ->
  List.length (filter has_status (messages (ui a))) <= 1.
Proof.
  induction 1 as [|a e a' _ IH Hstep].
  - cbn [chat_init ui messages].
    pose proof (load_stored_status storedMessages) as H.
    induction H as [|m l Hm _ IHl]; [simpl; lia|].
    simpl. unfold has_status at 1. rewrite Hm. exact IHl.
  - exact (step_keeps_one_status IH Hstep).
Qed.

(** ** A whole [handleSubmit] *)

Section Submit.

Context {env : Platform}.

Lemma streamQuery_not_thrown fuel q net sid e :
  snd (snd (streamQuery fuel q net sid)) <> Thrown e.
Proof.
  unfold streamQuery. cbn [snd].
  destruct (try_block fuel q net _) as [st' [|e'|]]; cbn [snd]; discriminate.
Qed.

Lemma consume_messages (ys : list json) : forall u,
  let u' := fold_left (fun u m => setMessages (on_message m) u) ys u in
  without_status (messages u')
    = without_status (messages u) ++ flat_map lasting_entries ys
  /\ input u' = input u
  /\ isLoading u' = isLoading u.
Proof.
  induction ys as [|m ys IH]; intros u; cbv zeta.
  - simpl. now rewrite app_nil_r.
  - cbn [fold_left flat_map].
    destruct (IH (setMessages (on_message m) u)) as (H1 & H2 & H3).
    rewrite H1, H2, H3. cbn [setMessages messages input isLoading].
    now rewrite on_message_lasting, app_assoc.
Qed.

(** X14: what a [handleSubmit] that sends a request leaves behind.  The
    entries without a status are those from before, the user's message
    with the input as typed, and the lasting entries of the values the
    generator yielded, in the order they were yielded; the input is
    cleared; [isLoading] is false again exactly when the generator has
    returned; the catch block has added nothing. *)
Theorem handleSubmit_history (fuel : nat) (net : fetch_result)
    (u u' : ui_state) (sid sid' : json) (request : QueryRequest) :
  handleSubmit fuel net u sid = (u', sid', Some request) ->
  let r := snd (streamQuery fuel (input u) net sid) in
  without_status (messages u')
    = without_status (messages u)
      ++ {| text := Value (Some (JStr (input u))); isAI := false;
            status := None |}
         :: flat_map lasting_entries (yielded (fst r))
  /\ input u' = []
  /\ (isLoading u' = false <-> snd r = Returned)
  /\ sid' = currentSessionId (fst r).
Proof.
  unfold handleSubmit, handleSubmit_begin.
  destruct (negb (nonempty (trim (input u))) || isLoading u); [discriminate|].
  pose proof (streamQuery_not_thrown fuel (input u) net sid) as Hnt.
  destruct (streamQuery fuel (input u) net sid) as [req [st c]].
  cbn [snd fst] in *. intros H. injection H as <- <- _.
  set (u0 := setIsLoading true (setInput [] (setMessages _ u))).
  destruct (consume_messages (yielded st) u0) as (H1 & H2 & H3).
  cbv zeta in H1, H2, H3.
  destruct c as [|e|]; cbn [handleSubmit_end setIsLoading messages input
                              isLoading].
  - rewrite H1, H2. subst u0.
    cbn [setIsLoading setInput setMessages messages input].
    rewrite without_status_app, <- app_assoc. repeat split.
  - elim (Hnt e). reflexivity.
  - rewrite H1, H2, H3. subst u0.
    cbn [setIsLoading setInput setMessages messages input isLoading].
    rewrite without_status_app, <- app_assoc.
    repeat split; discriminate.
Qed.

End Submit.

(** ** Code blocks *)

Lemma after_prefix_split (p s r : jsstring) :
  after_prefix p s = Some r -> s = p ++ r.
Proof.
  revert s. induction p as [|a p IH]; intros s; simpl.
  - intros H. now injection H as <-.
  - destruct s as [|b s]; [discriminate|].
    destruct (N.eqb_spec a b) as [->|]; [|discriminate].
    intros H. now rewrite (IH _ H).
Qed.

Lemma after_prefix_app (p r : jsstring) : after_prefix p (p ++ r) = Some r.
Proof.
  induction p as [|a p IH]; [reflexivity|].
  simpl. now rewrite N.eqb_refl.
Qed.

Lemma word_run_split (s : jsstring) :
  exists post,
    s = word_run s ++ post
    /\ Forall (fun c => is_word_char c = true) (word_run s)
    /\ forall c r, post = c :: r -> is_word_char c = false.
Proof.
  induction s as [|c s (post & H1 & H2 & H3)].
  - exists []. repeat split; [constructor|discriminate].
  - simpl. destruct (is_word_char c) eqn:E.
    + exists post. repeat split; [simpl; now f_equal|now constructor|exact H3].
    + exists (c :: s). repeat split; [constructor|].
      intros c' r H. now injection H as <- _.
Qed.

Lemma word_run_app (w post : jsstring) :
  Forall (fun c => is_word_char c = true) w ->
  (forall c r, post = c :: r -> is_word_char c = false) ->
  word_run (w ++ post) = w.
Proof.
  intros Hw Hpost. induction Hw as [|c w Hc _ IH]; simpl.
  - destruct post as [|c r]; [reflexivity|].
    simpl. now rewrite (Hpost c r eq_refl).
  - now rewrite Hc, IH.
Qed.

(** X15: a language found in a class name is a run of word characters,
    not empty, that stands in the class name right after [language-] and
    is not followed by a word character. *)
Theorem exec_language_sound (s w : jsstring) :
  exec_language s = Some w ->
  w <> []
  /\ Forall (fun c => is_word_char c = true) w
  /\ exists pre post,
       s = pre ++ lit "language-" ++ w ++ post
       /\ forall c r, post = c :: r -> is_word_char c = false.
Proof.
  induction s as [|c s IH]; [discriminate|].
  cbn [exec_language].
  assert (Hrec : exec_language s = Some w ->
                 w <> []
                 /\ Forall (fun c => is_word_char c = true) w
                 /\ exists pre post,
                      c :: s = pre ++ lit "language-" ++ w ++ post
                      /\ forall c r, post = c :: r -> is_word_char c = false).
  { intros H. destruct (IH H) as (H1 & H2 & pre & post & H3 & H4).
    repeat split; try assumption.
    exists (c :: pre), post. split; [simpl; now f_equal|exact H4]. }
  destruct (after_prefix (lit "language-") (c :: s)) as [rest|] eqn:Ep;
    [|exact Hrec].
  destruct (word_run rest) as [|x w'] eqn:Ew; [exact Hrec|].
  intros H. injection H as <-.
  destruct (word_run_split rest) as (post & H1 & H2 & H3).
  rewrite Ew in H1, H2. split; [discriminate|]. split; [exact H2|].
  exists [], post. split; [|exact H3].
  apply after_prefix_split in Ep. rewrite Ep. simpl. now rewrite H1 at 1.
Qed.

(** X16: a code element whose class name starts with [language-] and a
    run of word characters, as the fence of a Markdown code block gives
    it, is rendered highlighted in that language, its text without the
    newline that ends it. *)
Theorem code_block_language (w post children : jsstring) :
  w <> [] ->
  Forall (fun c => is_word_char c = true) w ->
  (forall c r, post = c :: r -> is_word_char c = false) ->
  code (Some (lit "language-" ++ w ++ post)) children
  = Highlighted w (strip_final_newline children).
Proof.
  intros Hne Hw Hpost. unfold code.
  assert (Hcls : or_empty (Some (lit "language-" ++ w ++ post))
                 = lit "language-" ++ w ++ post) by apply or_empty_some.
  rewrite Hcls.
  assert (He : exec_language (lit "language-" ++ w ++ post) = Some w).
  { pose proof (after_prefix_app (lit "language-") (w ++ post)) as Hp.
    destruct (lit "language-" ++ w ++ post) as [|c s] eqn:E;
      [discriminate|].
    cbn [exec_language]. rewrite Hp, word_run_app by assumption.
    destruct w as [|x w']; [now elim Hne|reflexivity]. }
  now rewrite He.
Qed.

Lemma strip_final_newline_end (s : jsstring) :
  strip_final_newline (s ++ [newline]) = s.
Proof.
  induction s as [|c s IH]; [reflexivity|].
  change ((c :: s) ++ [newline]) with (c :: (s ++ [newline])).
  cbn [strip_final_newline]. rewrite IH.
  destruct (s ++ [newline]) eqn:E; [|reflexivity].
  now destruct s.
Qed.

(** X17: [replace(/\n$/, '')] takes one newline off the end of the text
    of a code block and no more, and leaves a text that does not end in a
    newline as it is. *)
Theorem strip_final_newline_spec (s : jsstring) :
  strip_final_newline (s ++ [newline]) = s
  /\ ((forall init, s <> init ++ [newline]) -> strip_final_newline s = s).
Proof.
  split; [apply strip_final_newline_end|].
  induction s as [|c s IH]; intros H; [reflexivity|].
  cbn [strip_final_newline]. destruct s as [|c' s'].
  - destruct (N.eqb_spec c newline) as [->|]; [|reflexivity].
    elim (H []). reflexivity.
  - f_equal. apply IH. intros init Hi.
    apply (H (c :: init)). simpl. now rewrite Hi.
Qed.

(** ** What stays of a stream message *)

Lemma type_is_inv (t : string) (m : json) :
  type_is t m = true -> get_prop k_type m = Some (JStr (lit t)).
Proof.
  unfold type_is. destruct (get_prop k_type m) as [[| | |s| |]|];
    try discriminate.
  intros H. apply str_eqb_eq in H. now subst.
Qed.

(** X18: what each kind of stream message leaves in the conversation for
    good.  A content message leaves one entry with its content, an error
    message one entry with [Error: ] before its content, a message of any
    other type nothing; a status message leaves nothing when its content
    is a non-empty string (or any other truthy value), but when its
    content is empty or missing its blank entry is not a status for the
    filter and stays. *)
Theorem lasting_entries_by_type (m : json) :
  (type_is "status" m = true ->
   lasting_entries m
   = if truthy (get_prop k_content m) then []
     else [{| text := Value (Some (JStr [])); isAI := true;
              status := get_prop k_content m |}])
  /\ (type_is "content" m = true ->
      lasting_entries m
      = [{| text := Value (get_prop k_content m); isAI := true;
            status := None |}])
  /\ (type_is "error" m = true ->
      lasting_entries m
      = [{| text := Template (lit "Error: ") (get_prop k_content m);
            isAI := true; status := None |}])
  /\ (type_is "status" m = false -> type_is "content" m = false ->
      type_is "error" m = false -> lasting_entries m = []).
Proof.
  unfold lasting_entries, on_message. repeat split.
  - intros H. rewrite H. unfold without_status, has_status. simpl.
    now destruct (truthy (get_prop k_content m)).
  - intros H. pose proof (type_is_inv _ _ H) as Ht.
    unfold type_is at 1. rewrite Ht.
    change (str_eqb (lit "content") (lit "status")) with false.
    rewrite H. reflexivity.
  - intros H. pose proof (type_is_inv _ _ H) as Ht.
    unfold type_is at 1 2. rewrite Ht.
    change (str_eqb (lit "error") (lit "status")) with false.
    change (str_eqb (lit "error") (lit "content")) with false.
    rewrite H. reflexivity.
  - intros H1 H2 H3. now rewrite H1, H2, H3.
Qed.

(** ** The further properties on concrete inputs *)

Lemma streamQuery_terminates_witness :
  let r := snd (streamQuery_utf8 4 (text_of "hi")
                  (streamed 200 sample_chunks Closed) JNull) in
  snd r = Returned /\ reads (fst r) = 4.
Proof.
  apply (@streamQuery_terminates browser 4 (text_of "hi") 200 sample_chunks
           JNull).
  - reflexivity.
  - simpl. lia.
  - vm_compute. reflexivity.
Defined.

Lemma streamQuery_read_error_witness :
  let r := snd (streamQuery_utf8 2 (text_of "hi") broken_body JNull) in
  yielded (fst r)
    = [JObj [(k_type, JStr (text_of "status"));
             (k_content, JStr (text_of "Searching"))];
       error_message (text_of "network error")]
  /\ currentSessionId (fst r) = JNull
  /\ snd r = Returned
  /\ reads (fst r) = 2.
Proof.
  apply (@streamQuery_read_error browser 2 (text_of "hi") 200
           [bytes ("{'type':'status','content':'Searching'}" ++ LF)%string]
           (ErrorObject (text_of "network error")) JNull).
  - reflexivity.
  - simpl. lia.
Defined.

Lemma streamQuery_fails_before_body_witness :
  snd (streamQuery_utf8 3 (text_of "hi") server_error
         (JStr (text_of "abc")))
  = ({| currentSessionId := JStr (text_of "abc");
        yielded := [error_message (lit "Network response was not ok")];
        reads := 0 |}, Returned).
Proof.
  apply (@streamQuery_fails_before_body browser 3 (text_of "hi") server_error
           (JStr (text_of "abc")) (lit "Network response was not ok")).
  reflexivity.
Defined.

Lemma streamQuery_skips_blank_line_witness :
  observe (snd (streamQuery_utf8 2 (text_of "hi")
                  (streamed 200
                     [bytes (line_a ++ "   " ++ LF ++ line_b)%string] Closed)
                  JNull))
  = observe (snd (streamQuery_utf8 2 (text_of "hi")
                    (streamed 200 [bytes (line_a ++ line_b)%string] Closed)
                    JNull)).
Proof.
  apply (@streamQuery_skips_blank_line browser (text_of line_a)
           (text_of "   ") (text_of line_b)).
  - reflexivity.
  - vm_compute. reflexivity.
  - vm_compute. intros H. repeat (destruct H as [H|H]; [discriminate H|]).
    exact H.
  - vm_compute. reflexivity.
  - vm_compute. reflexivity.
  - vm_compute. reflexivity.
  - simpl. lia.
  - simpl. lia.
Defined.

Lemma streamQuery_final_newline_witness :
  let open :=
    snd (streamQuery_utf8 2 (text_of "hi")
           (streamed 200 [bytes (line_a ++ line_b)%string] Closed) JNull) in
  let ended :=
    snd (streamQuery_utf8 3 (text_of "hi")
           (streamed 200 [bytes (line_a ++ line_b)%string; bytes LF] Closed)
           JNull) in
  yielded (fst ended) = yielded (fst open)
  /\ currentSessionId (fst ended) = currentSessionId (fst open)
  /\ snd ended = Returned.
Proof.
  apply (@streamQuery_final_newline browser 200 (text_of "hi") JNull
           [bytes (line_a ++ line_b)%string]
           [bytes (line_a ++ line_b)%string; bytes LF] 2 3).
  - reflexivity.
  - vm_compute. reflexivity.
  - vm_compute. reflexivity.
  - simpl. lia.
  - simpl. lia.
Defined.

Lemma request_query_trimmed_witness :
  let sent :=
    query (fst (streamQuery_utf8 1 (text_of "  what is new?  ")
                  (Rejected NonError) JNull)) in
  trim sent = sent
  /\ is_white_space 119%N = false
  /\ is_white_space 63%N = false.
Proof.
  destruct (@request_query_trimmed browser 1 (text_of "  what is new?  ")
              (Rejected NonError) JNull) as (H1 & H2 & H3).
  split; [exact H1|]. split.
  - apply (H2 119%N (text_of "hat is new?")). vm_compute. reflexivity.
  - apply (H3 (text_of "what is new") 63%N). vm_compute. reflexivity.
Defined.

Lemma keydown_and_button_witness :
  snd (handleKeyDown enter_key typed_ui) <> None
  /\ handleKeyDown {| key := lit "a"; shiftKey := false |} typed_ui
     = (typed_ui, None).
Proof.
  split.
  - apply (proj1 (proj2 (keydown_and_button enter_key typed_ui))).
    repeat split.
  - apply (proj2 (proj2 (keydown_and_button
                           {| key := lit "a"; shiftKey := false |}
                           typed_ui))).
    reflexivity.
Defined.

Lemma load_stored_all_or_nothing_witness :
  let l := load_stored (env := browser) (Some (text_of stored_text)) [] in
  List.length l = 2
  /\ Forall (fun m => status m = None) l
  /\ forall i msg, nth_error stored_array i = Some msg ->
                   nth_error l i = format_stored msg.
Proof.
  apply (proj2 (@load_stored_all_or_nothing browser (text_of stored_text)
                  stored_array [] eq_refl eq_refl)).
  intros [H|[H|[]]]; discriminate H.
Defined.

Lemma load_stored_unusable_witness :
  load_stored (env := browser) (Some (text_of "not json")) [] = [].
Proof.
  apply (@load_stored_unusable browser).
  intros t l H _. injection H as <-. vm_compute. discriminate.
Defined.

Lemma asked_reachable :
  reachable (load_stored (env := browser) (Some (text_of stored_text)) [])
            asked.
Proof.
  unfold asked. cbn [fold_left].
  repeat (eapply reach_step;
          [ | apply next_step;
              [ intros m H; first [discriminate H|vm_compute; discriminate]
              | intros c H; discriminate H ] ]).
  apply reach_init.
Qed.

Example asked_state :
  map status (messages (ui asked))
  = [None; None; None; Some (JStr []);
     Some (JStr (text_of "Searching caf" ++ [233%N]))].
Proof. vm_compute. reflexivity. Qed.

Lemma history_is_append_only_witness :
  exists added,
    without_status (messages (ui asked))
    = without_status
        (load_stored (env := browser) (Some (text_of stored_text)) [])
      ++ added.
Proof.
  apply (@history_is_append_only
           (load_stored (env := browser) (Some (text_of stored_text)) [])
           asked).
  exact asked_reachable.
Defined.

Lemma at_most_one_status_entry_witness :
  List.length (filter has_status (messages (ui asked))) <= 1.
Proof.
  apply (@at_most_one_status_entry browser (Some (text_of stored_text)) asked).
  exact asked_reachable.
Defined.

Lemma handleSubmit_history_witness :
  let done :=
    handleSubmit_utf8 4 (streamed 200 sample_chunks Closed) typed_ui JNull in
  let r := snd (streamQuery_utf8 4 (input typed_ui)
                  (streamed 200 sample_chunks Closed) JNull) in
  without_status (messages (fst (fst done)))
    = without_status (messages typed_ui)
      ++ {| text := Value (Some (JStr (input typed_ui))); isAI := false;
            status := None |}
         :: flat_map lasting_entries (yielded (fst r))
  /\ input (fst (fst done)) = []
  /\ (isLoading (fst (fst done)) = false <-> snd r = Returned)
  /\ snd (fst done) = currentSessionId (fst r).
Proof.
  apply (@handleSubmit_history browser 4 (streamed 200 sample_chunks Closed)
           typed_ui
           (fst (fst (handleSubmit_utf8 4 (streamed 200 sample_chunks Closed)
                        typed_ui JNull)))
           JNull
           (snd (fst (handleSubmit_utf8 4 (streamed 200 sample_chunks Closed)
                        typed_ui JNull)))
           (fst (streamQuery_utf8 4 (input typed_ui)
                   (streamed 200 sample_chunks Closed) JNull))).
  vm_compute. reflexivity.
Defined.

Example sample_history :
  map text
      (messages (fst (fst (handleSubmit_utf8 4
                             (streamed 200 sample_chunks Closed)
                             typed_ui JNull))))
  = [Value (Some (JStr (text_of "  what is new?  ")));
     Value (Some (JStr (text_of "done")))].
Proof. vm_compute. reflexivity. Qed.

Lemma exec_language_sound_witness :
  text_of "python" <> []
  /\ Forall (fun c => is_word_char c = true) (text_of "python")
  /\ exists pre post,
       text_of "hljs language-python extra"
       = pre ++ lit "language-" ++ text_of "python" ++ post
       /\ forall c r, post = c :: r -> is_word_char c = false.
Proof.
  apply (@exec_language_sound (text_of "hljs language-python extra")
           (text_of "python")).
  vm_compute. reflexivity.
Defined.

Lemma code_block_language_witness :
  code (Some (lit "language-" ++ text_of "js" ++ []))
       (text_of ("let x = 1;" ++ LF)%string)
  = Highlighted (text_of "js")
                (strip_final_newline (text_of ("let x = 1;" ++ LF)%string)).
Proof.
  apply (@code_block_language (text_of "js") []).
  - discriminate.
  - repeat constructor.
  - intros c r H. discriminate H.
Defined.

Lemma strip_final_newline_spec_witness :
  strip_final_newline (text_of "x" ++ [newline]) = text_of "x"
  /\ strip_final_newline (text_of "x") = text_of "x".
Proof.
  destruct (strip_final_newline_spec (text_of "x")) as [H1 H2].
  split; [exact H1|].
  apply H2. intros [|c [|c' init]] H; discriminate H.
Defined.

Lemma lasting_entries_by_type_witness :
  lasting_entries status_searching = []
  /\ lasting_entries empty_status
     = [{| text := Value (Some (JStr [])); isAI := true;
           status := Some (JStr []) |}]
  /\ lasting_entries content_done
     = [{| text := Value (Some (JStr (text_of "done"))); isAI := true;
           status := None |}].
Proof.
  split; [|split].
  - apply (proj1 (lasting_entries_by_type status_searching)). reflexivity.
  - apply (proj1 (lasting_entries_by_type empty_status)). reflexivity.
  - apply (proj1 (proj2 (lasting_entries_by_type content_done))). reflexivity.
Defined.
